(** * sync_services.py: events -> reference table -> service catalog

    A shallow embedding of [sync_services.py] and the properties of its
    reconciliation pipeline.

    Conventions of the embedding.
    - A Python [str] is a [string]; each character stands for the code
      point of the same number (0..255).  Ordering, whitespace, case and
      [repr] follow Python on that range.
    - A decoded JSON document is a [json] value.  A float is kept as what
      the program can observe of it: whether it is non-zero and its text.
    - A [dict] is an association list in insertion order with distinct
      keys; a [set] is a duplicate-free list.
    - A function that can raise returns a [result]; code that talks to
      the network runs in the monad [M], which threads the list of
      requests issued so far and the lines printed.
    - [while True] loops take a fuel argument; [OutOfFuel] is returned
      only when the loop has not stopped within that many iterations. *)

From Stdlib Require Import ZArith Ascii String List.
From stdpp Require Import base numbers list strings sorting pretty.

(** ** Python values *)

Set Warnings "-register-all".

Inductive json :=
| JNull
| JBool (b : bool)
| JInt (n : Z)
| JFloat (nonzero : bool) (shown : string)
| JStr (s : string)
| JArr (items : list json)
| JObj (members : list (string * json)).

(** [bool(v)] *)
Definition truthy (v : json) : bool :=
  match v with
  | JNull => false
  | JBool b => b
  | JInt n => negb (Z.eqb n 0)
  | JFloat nz _ => nz
  | JStr s => negb (String.eqb s "")
  | JArr l => match l with [] => false | _ => true end
  | JObj m => match m with [] => false | _ => true end
  end.

(** [a or b] *)
Definition py_or (a b : json) : json := if truthy a then a else b.

Inductive exn :=
| SystemExit (msg : string)
| HTTPError (status : Z)
| ValueError
| AttributeError
| TypeError
| IndexError.

(** What a call that can raise gives back. *)
Inductive result (A : Type) :=
| Ok (a : A)
| Err (e : exn).
Arguments Ok {A} a.
Arguments Err {A} e.

Definition obind {A B} (o : result A) (k : A -> result B) : result B :=
  match o with
  | Ok a => k a
  | Err e => Err e
  end.

Notation "'let?' x := c 'in' k" := (obind c (fun x => k))
  (at level 10, x name, c at level 100, k at level 200).

(** A [for] loop whose body may raise, threading an accumulator. *)
Fixpoint ofold {A B} (f : A -> B -> result A) (a : A) (l : list B) : result A :=
  match l with
  | [] => Ok a
  | x :: l' => let? a' := f a x in ofold f a' l'
  end.

(** ** Strings *)

Definition str_drop (n : nat) (s : string) : string :=
  String.substring n (String.length s - n) s.

(** [s.split(sep, 1)] for a non-empty [sep]: the part before and the part
    after the first occurrence, or [s] alone when there is none. *)
Fixpoint str_cut (sep s : string) : option (string * string) :=
  if String.prefix sep s then Some ("", str_drop (String.length sep) s)
  else match s with
       | EmptyString => None
       | String c s' =>
           match str_cut sep s' with
           | Some (a, b) => Some (String c a, b)
           | None => None
           end
       end.

Definition str_split1 (sep s : string) : list string :=
  match str_cut sep s with
  | Some (a, b) => [a; b]
  | None => [s]
  end.

(** [c.isspace()] *)
Definition is_space (c : ascii) : bool :=
  let n := N_of_ascii c in
  ((9 <=? n) && (n <=? 13) || (28 <=? n) && (n <=? 32) || (n =? 133) || (n =? 160))%N.

Fixpoint lstrip (s : string) : string :=
  match s with
  | String c s' => if is_space c then lstrip s' else s
  | EmptyString => EmptyString
  end.

Fixpoint rstrip_with (p : ascii -> bool) (s : string) : string :=
  match s with
  | EmptyString => EmptyString
  | String c s' =>
      match rstrip_with p s' with
      | EmptyString => if p c then EmptyString else String c EmptyString
      | r => String c r
      end
  end.

(** [s.strip()] *)
Definition strip (s : string) : string := rstrip_with is_space (lstrip s).

(** [c.lower()] *)
Definition lower_char (c : ascii) : ascii :=
  let n := N_of_ascii c in
  if ((65 <=? n) && (n <=? 90) || (192 <=? n) && (n <=? 222) && negb (n =? 215))%N
  then ascii_of_N (n + 32) else c.

Fixpoint lower (s : string) : string :=
  match s with
  | EmptyString => EmptyString
  | String c s' => String (lower_char c) (lower s')
  end.

(** *** [repr] and [str] *)

Definition hex_digit (n : N) : ascii :=
  ascii_of_N (if (n <? 10)%N then 48 + n else 87 + n)%N.

Definition is_printable (c : ascii) : bool :=
  let n := N_of_ascii c in
  negb ((n <? 32) || (127 <=? n) && (n <=? 160) || (n =? 173))%N.

Definition dquote : ascii := "034"%char.
Definition squote : ascii := "039"%char.

Definition repr_char (quote c : ascii) : string :=
  let n := N_of_ascii c in
  if Ascii.eqb c "\"%char then "\\"
  else if Ascii.eqb c quote then String "\"%char (String c "")
  else if (n =? 9)%N then "\t"
  else if (n =? 10)%N then "\n"
  else if (n =? 13)%N then "\r"
  else if is_printable c then String c ""
  else String "\"%char (String "x"%char
         (String (hex_digit (n / 16)) (String (hex_digit (n mod 16)) ""))).

Fixpoint str_mem (c : ascii) (s : string) : bool :=
  match s with
  | EmptyString => false
  | String d s' => Ascii.eqb c d || str_mem c s'
  end.

Fixpoint repr_chars (quote : ascii) (s : string) : string :=
  match s with
  | EmptyString => EmptyString
  | String c s' => repr_char quote c +:+ repr_chars quote s'
  end.

Definition repr_str (s : string) : string :=
  let quote := if str_mem squote s && negb (str_mem dquote s) then dquote else squote in
  String quote (repr_chars quote s +:+ String quote "").

Fixpoint py_repr (v : json) : string :=
  match v with
  | JNull => "None"
  | JBool true => "True"
  | JBool false => "False"
  | JInt n => pretty n
  | JFloat _ s => s
  | JStr s => repr_str s
  | JArr l => "[" +:+ String.concat ", " (List.map py_repr l) +:+ "]"
  | JObj m =>
      "{" +:+ String.concat ", "
                (List.map (fun kv => repr_str (fst kv) +:+ ": " +:+ py_repr (snd kv)) m)
          +:+ "}"
  end.

(** [str(v)] *)
Definition py_str (v : json) : string :=
  match v with
  | JStr s => s
  | _ => py_repr v
  end.

(** ** Attribute access on decoded values *)

Fixpoint assoc_get {V} (k : string) (m : list (string * V)) : option V :=
  match m with
  | [] => None
  | (k', v) :: m' => if String.eqb k k' then Some v else assoc_get k m'
  end.

(** [x.get(k, d)]: only a dict has [get]. *)
Definition py_get (x : json) (k : string) (d : json) : result json :=
  match x with
  | JObj m => Ok (default d (assoc_get k m))
  | _ => Err AttributeError
  end.

(** [for item in x] *)
Definition py_iter (x : json) : result (list json) :=
  match x with
  | JArr l => Ok l
  | JObj m => Ok (List.map (fun kv => JStr (fst kv)) m)
  | JStr s => Ok (List.map (fun c => JStr (String c "")) (list_ascii_of_string s))
  | _ => Err TypeError
  end.

(** [x.startswith(p)] *)
Definition py_startswith (x : json) (p : string) : result bool :=
  match x with
  | JStr s => Ok (String.prefix p s)
  | _ => Err AttributeError
  end.

(** [x.split(sep, 1)] *)
Definition py_split1 (x : json) (sep : string) : result (list string) :=
  match x with
  | JStr s => Ok (str_split1 sep s)
  | _ => Err AttributeError
  end.

(** [x.strip()] *)
Definition py_strip (x : json) : result string :=
  match x with
  | JStr s => Ok (strip s)
  | _ => Err AttributeError
  end.

(** [l[i]] *)
Definition py_index {A} (l : list A) (i : nat) : result A :=
  match l !! i with
  | Some x => Ok x
  | None => Err IndexError
  end.

(** ** Sets and dicts of strings *)

Definition pyset := list string.

Definition set_add (x : string) (s : pyset) : pyset :=
  if decide (x ∈ s) then s else s ++ [x].

(** [set(l)] *)
Definition py_set (l : list string) : pyset := foldl (fun s x => set_add x s) [] l.

(** [sorted(l)] *)
Definition sorted (l : list string) : list string := merge_sort String.le l.

Definition pydict := list (string * string).

(** [d[k] = v] *)
Fixpoint dict_set (k v : string) (d : pydict) : pydict :=
  match d with
  | [] => [(k, v)]
  | (k', v') :: d' =>
      if String.eqb k k' then (k, v) :: d' else (k', v') :: dict_set k v d'
  end.

(** [k in d] *)
Definition dict_mem (k : string) (d : pydict) : bool :=
  match assoc_get k d with Some _ => true | None => false end.

(** [d.update(e)] *)
Definition dict_update (d e : pydict) : pydict :=
  foldl (fun acc kv => dict_set (fst kv) (snd kv) acc) d e.

(** [enumerate(l)] *)
Definition enumerate {A} (l : list A) : list (nat * A) := zip (seq 0 (length l)) l.

(** ** Small helpers (source lines 67-77) *)

Definition teams : list string := ["team 1"; "team 2"].

Definition assign_dummy_teams (services : list string) : pydict :=
  foldl (fun assigned '(idx, service) =>
           dict_set service (teams !!! (idx mod length teams)%nat) assigned)
        []
        (enumerate (sorted (py_set (filter (fun s => s ≠ "") services)))).

Definition _extract_row_values (item : json) : result json :=
  let? a := py_get item "attributes" (JObj []) in
  let attrs := py_or a (JObj []) in
  let? v1 := py_get attrs "values" JNull in
  if truthy v1 then Ok v1 else
  let? v2 := py_get attrs "value" JNull in
  if truthy v2 then Ok v2 else
  let? v3 := py_get attrs "columns" JNull in
  if truthy v3 then Ok v3 else Ok attrs.

(** ** The network

    Every [requests.get] / [requests.post] of the program is one
    [request]; the constructor names the call site and carries the URL
    and the query parameters or JSON body.  The authentication headers
    are the same for every call of a run and are left out.  A [response]
    holds the fields the program reads; [json_body] is [None] when
    [resp.json()] raises [ValueError].  The remote side is an [oracle]:
    its answer may depend on every request issued before.  Every call
    is answered: connection errors and timeouts, which raise inside
    [requests], are outside the model, and a [next] link that is not a
    [str] is used as the URL that [str] makes of it. *)

Inductive request :=
| EventsSearch (url : string) (body : json)
| TablesGet (url : string) (params : option (list (string * string)))
| RowsGet (url : string) (params : list (string * string))
| RowsPost (url : string) (payload : json)
| DefinitionsPost (url : string) (payload : json).

Record response := {
  status_code : Z;
  text : string;
  json_body : option json;
  request_url : string
}.

Definition oracle := list request -> request -> response.

Record world := { calls : list request; stdout : list string }.

(** How a run ends: with a value, with an exception, or not within the
    fuel it was given. *)
Inductive outcome (A : Type) :=
| Ret (a : A)
| Raise (e : exn)
| OutOfFuel.
Arguments Ret {A} a.
Arguments Raise {A} e.
Arguments OutOfFuel {A}.

Definition M (A : Type) : Type := world -> outcome A * world.

Definition mret {A} (a : A) : M A := fun w => (Ret a, w).

Definition mbind {A B} (m : M A) (k : A -> M B) : M B :=
  fun w =>
    match m w with
    | (Ret a, w') => k a w'
    | (Raise e, w') => (Raise e, w')
    | (OutOfFuel, w') => (OutOfFuel, w')
    end.

Definition raise {A} (e : exn) : M A := fun w => (Raise e, w).

Definition out_of_fuel {A} : M A := fun w => (OutOfFuel, w).

Definition lift {A} (o : result A) : M A :=
  match o with
  | Ok a => mret a
  | Err e => raise e
  end.

Notation "'do' x <- c ; k" := (mbind c (fun x => k))
  (at level 10, x name, c at level 100, k at level 200).
Notation "'run' c ; k" := (mbind c (fun _ => k))
  (at level 10, c at level 100, k at level 200).

Definition print (line : string) : M unit :=
  fun w => (Ret tt, {| calls := calls w; stdout := stdout w ++ [line] |}).

Definition when (b : bool) (m : M unit) : M unit := if b then m else mret tt.

(** A [for] loop whose body talks to the network. *)
Fixpoint mfold {A B} (f : A -> B -> M A) (a : A) (l : list B) : M A :=
  match l with
  | [] => mret a
  | x :: l' => do a' <- f a x; mfold f a' l'
  end.

Definition http (srv : oracle) (req : request) : M response :=
  fun w => (Ret (srv (calls w) req),
            {| calls := calls w ++ [req]; stdout := stdout w |}).

(** [resp.json()] *)
Definition resp_json (resp : response) : result json :=
  match json_body resp with
  | Some v => Ok v
  | None => Err ValueError
  end.

(** [resp.raise_for_status()] *)
Definition raise_for_status (resp : response) : result unit :=
  if ((400 <=? status_code resp) && (status_code resp <? 600))%Z
  then Err (HTTPError (status_code resp)) else Ok tt.

(** [print(a, b, c, d)] *)
Definition print_words (ws : list string) : M unit := print (String.concat " " ws).

(** [range(start, stop, step)] for a positive step; [fuel] bounds the
    number of elements. *)
Fixpoint range_from (fuel start stop step : nat) : list nat :=
  match fuel with
  | O => []
  | S fuel' =>
      if (start <? stop)%nat then start :: range_from fuel' (start + step) stop step
      else []
  end.

Definition py_range (start stop step : nat) : list nat :=
  range_from stop start stop step.

(** ** Events (source lines 83-151) *)

(** The body of [for event in ...], lines 132-145. *)
Definition extract_event (services : pyset) (event : json) : result pyset :=
  let? a := py_get event "attributes" (JObj []) in
  let attrs := py_or a (JObj []) in
  let? n := py_get attrs "attributes" (JObj []) in
  let nested := py_or n (JObj []) in
  let? svc := py_get nested "service" JNull in
  if truthy svc then Ok (set_add (py_str svc) services)
  else
    let? t := py_get attrs "tags" (JArr []) in
    let? tags := py_iter (py_or t (JArr [])) in
    ofold (fun services tag =>
             let? hit := py_startswith tag "service:" in
             if hit then
               let? parts := py_split1 tag "service:" in
               let? name := py_index parts 1 in
               Ok (set_add name services)
             else Ok services)
          services tags.

(** The request body, with [body["page"]["cursor"]] present or not. *)
Definition events_body (start_iso end_iso query : string) (limit : Z)
    (cursor : option json) : json :=
  JObj [("filter", JObj [("from", JStr start_iso); ("to", JStr end_iso);
                         ("query", JStr query)]);
        ("page", JObj (("limit", JInt limit) ::
                       match cursor with Some c => [("cursor", c)] | None => [] end))].

(** [(data.get("meta", {}) or {}).get("page", {}).get("after")] *)
Definition next_cursor (data : json) : result json :=
  let? m := py_get data "meta" (JObj []) in
  let? p := py_get (py_or m (JObj [])) "page" (JObj []) in
  py_get p "after" JNull.

Section Events.
Variable srv : oracle.
Variables (base_url start_iso end_iso query : string) (limit : Z).
Variables (max_pages : option Z) (verbose : bool).

Definition events_url : string := base_url +:+ "/api/v2/events/search".

(** One pass through the body of [while True], lines 108-149, with
    [page] already incremented.  [inl] is a [break] with the services
    to return; [inr] carries [cursor], the cursor entry of [body] and
    [services] into the next pass. *)
Definition events_iteration (page : Z) (cursor : json) (body_cursor : option json)
    (services : pyset) : M (pyset + json * option json * pyset) :=
  if match max_pages with Some mp => (mp <? page)%Z | None => false end then
    run when verbose
          (print ("Stopping at page " +:+ pretty (page - 1)%Z
                    +:+ " (max_pages reached)."));
    mret (inl services)
  else
    let body_cursor :=
      if truthy cursor then Some cursor
      else match body_cursor with Some _ => None | None => body_cursor end in
    run when verbose (print ("Fetching events page " +:+ pretty page +:+ "..."));
    do resp <- http srv (EventsSearch events_url
                           (events_body start_iso end_iso query limit body_cursor));
    run when verbose
          (print_words ["EVENTS:"; request_url resp; pretty (status_code resp);
                        String.substring 0 200 (text resp)]);
    if (status_code resp =? 401)%Z then
      raise (SystemExit
               "Unauthorized (401) for events/search. Check API+APP keys permissions.")
    else
      run lift (raise_for_status resp);
      do data <- lift (resp_json resp);
      do services <- lift (let? d := py_get data "data" (JArr []) in
                           let? events := py_iter (py_or d (JArr [])) in
                           ofold extract_event services events);
      do cursor <- lift (next_cursor data);
      if truthy cursor then mret (inr (cursor, body_cursor, services))
      else mret (inl services).

(** The [while True] loop of lines 107-149. *)
Fixpoint events_pages (fuel : nat) (page : Z) (cursor : json)
    (body_cursor : option json) (services : pyset) : M pyset :=
  match fuel with
  | O => out_of_fuel
  | S fuel' =>
      let page := (page + 1)%Z in
      do r <- events_iteration page cursor body_cursor services;
      match r with
      | inl services => mret services
      | inr (cursor, body_cursor, services) =>
          events_pages fuel' page cursor body_cursor services
      end
  end.

Definition list_services_from_events (fuel : nat) : M pyset :=
  events_pages fuel 0%Z JNull None [].
End Events.

(** ** Reference tables (source lines 157-316) *)

Record table_info := { t_id : json; t_name : json; t_description : json }.

(** [payload.get("links", {}).get("next")] *)
Definition next_link (payload : json) : result json :=
  let? links := py_get payload "links" (JObj []) in
  py_get links "next" JNull.

(** [attrs.get("table_name") or attrs.get("name") or ""] *)
Definition table_name_of (attrs : json) : result json :=
  let? n1 := py_get attrs "table_name" JNull in
  if truthy n1 then Ok n1 else
  let? n2 := py_get attrs "name" JNull in
  Ok (py_or n2 (JStr "")).

(** [x.lower()] *)
Definition py_lower (x : json) : result string :=
  match x with
  | JStr s => Ok (lower s)
  | _ => Err AttributeError
  end.

Definition first_page_params : option (list (string * string)) :=
  Some [("page[limit]", "100")].

Section ReferenceTables.
Variable srv : oracle.

Definition tables_url (base_url : string) : string :=
  base_url +:+ "/api/v2/reference-tables/tables".

Fixpoint list_tables_pages (fuel : nat) (url : string)
    (params : option (list (string * string))) (out : list table_info)
    : M (list table_info) :=
  match fuel with
  | O => out_of_fuel
  | S fuel' =>
      do resp <- http srv (TablesGet url params);
      if (status_code resp =? 401)%Z then
        raise (SystemExit "Unauthorized (401) listing reference tables.")
      else
        run lift (raise_for_status resp);
        do payload <- lift (resp_json resp);
        do out <- lift (let? d := py_get payload "data" (JArr []) in
                        let? items := py_iter (py_or d (JArr [])) in
                        ofold (fun out item =>
                                 let? a := py_get item "attributes" (JObj []) in
                                 let attrs := py_or a (JObj []) in
                                 let? i := py_get item "id" JNull in
                                 let? n := table_name_of attrs in
                                 let? de := py_get attrs "description" JNull in
                                 Ok (out ++ [{| t_id := py_or i (JStr "");
                                                 t_name := n;
                                                 t_description := py_or de (JStr "") |}]))
                              out items);
        do nl <- lift (next_link payload);
        if truthy nl then list_tables_pages fuel' (py_str nl) None out
        else mret out
  end.

Definition list_reference_tables (fuel : nat) (base_url : string) : M (list table_info) :=
  list_tables_pages fuel (tables_url base_url) first_page_params [].

(** The body of [for item in ...] of lines 207-217: [inl] carries the
    names seen so far, [inr] the identifier the function returns. *)
Definition table_id_item (table_name : string) (available : list string) (item : json)
    : result (list string + json) :=
  let? a := py_get item "attributes" (JObj []) in
  let attrs := py_or a (JObj []) in
  let? n := table_name_of attrs in
  let? api_name := py_strip n in
  let available := if String.eqb api_name "" then available else available ++ [api_name] in
  let? i := py_get item "id" JNull in
  if String.eqb (lower api_name) (lower table_name) then Ok (inr (py_or i (JStr "")))
  else
    let? il := py_lower (py_or i (JStr "")) in
    if String.eqb il (lower table_name) then Ok (inr (py_or i (JStr "")))
    else Ok (inl available).

Fixpoint table_id_items (table_name : string) (available : list string)
    (items : list json) : result (list string + json) :=
  match items with
  | [] => Ok (inl available)
  | item :: items' =>
      let? r := table_id_item table_name available item in
      match r with
      | inl available' => table_id_items table_name available' items'
      | inr id => Ok (inr id)
      end
  end.

Definition table_not_found {A} (table_name : string) (verbose : bool)
    (available : list string) : M A :=
  if verbose && negb (bool_decide (available = [])) then
    raise (SystemExit ("Reference table not found. Available (sample): "
                         +:+ String.concat ", " (take 30 (sorted (py_set available)))))
  else raise (SystemExit ("Reference table not found: " +:+ table_name)).

Fixpoint table_id_pages (fuel : nat) (table_name : string) (verbose : bool)
    (url : string) (params : option (list (string * string)))
    (available : list string) : M json :=
  match fuel with
  | O => out_of_fuel
  | S fuel' =>
      do resp <- http srv (TablesGet url params);
      if (status_code resp =? 401)%Z then
        raise (SystemExit "Unauthorized (401) reading reference tables.")
      else if (status_code resp =? 404)%Z then
        table_not_found table_name verbose available
      else
        run lift (raise_for_status resp);
        do payload <- lift (resp_json resp);
        do r <- lift (let? d := py_get payload "data" (JArr []) in
                      let? items := py_iter (py_or d (JArr [])) in
                      table_id_items table_name available items);
        match r with
        | inr id => mret id
        | inl available =>
            do nl <- lift (next_link payload);
            if truthy nl then
              table_id_pages fuel' table_name verbose (py_str nl) None available
            else table_not_found table_name verbose available
        end
  end.

Definition get_reference_table_id (fuel : nat) (base_url table_name : string)
    (verbose : bool) : M json :=
  table_id_pages fuel table_name verbose (tables_url base_url) first_page_params [].

Definition get_reference_table_rows_endpoint (base_url : string) (table_id : json) : string :=
  base_url +:+ "/api/v2/reference-tables/tables/" +:+ py_str table_id +:+ "/rows".

(** The body of [for item in ...] of lines 273-278. *)
Definition rows_item (service_col team_col : string) (mapping : pydict) (item : json)
    : result pydict :=
  let? values := _extract_row_values item in
  let? sv := py_get values service_col JNull in
  let? service := py_strip (py_or sv (JStr "")) in
  let? tv := py_get values team_col JNull in
  let? team := py_strip (py_or tv (JStr "")) in
  if String.eqb service "" then Ok mapping else Ok (dict_set service team mapping).

(** [for item in payload.get("data", []) or []: ...] *)
Definition rows_payload (service_col team_col : string) (mapping : pydict) (payload : json)
    : result pydict :=
  let? d := py_get payload "data" (JArr []) in
  let? items := py_iter (py_or d (JArr [])) in
  ofold (rows_item service_col team_col) mapping items.

(** [payload.get("meta", {}).get("not_found") is not None] *)
Definition has_not_found_marker (payload : json) : result bool :=
  let? meta := py_get payload "meta" (JObj []) in
  let? nf := py_get meta "not_found" JNull in
  Ok (match nf with JNull => false | _ => true end).

Definition row_id_params (chunk : list string) : list (string * string) :=
  List.map (fun rid => ("row_id", rid)) chunk.

(** Lines 258-278: what the chunk loop does with a response.  [Ok] with
    the mapping unchanged is the [continue] of line 267. *)
Definition rows_response (service_col team_col : string) (mapping : pydict)
    (resp : response) : result pydict :=
  if (status_code resp =? 401)%Z then
    Err (SystemExit "Unauthorized (401) reading reference table rows.")
  else if (status_code resp =? 404)%Z then
    let payload := match json_body resp with Some p => p | None => JObj [] end in
    let? marked := has_not_found_marker payload in
    if marked then Ok mapping
    else Err (SystemExit "Rows endpoint not found. Verify rows URL/path.")
  else if (400 <=? status_code resp)%Z then
    Err (SystemExit ("Reference table rows request failed: "
                       +:+ pretty (status_code resp) +:+ " " +:+ text resp))
  else
    let? payload := resp_json resp in
    rows_payload service_col team_col mapping payload.

(** The body of the chunk loop, lines 251-278. *)
Definition rows_chunk (rows_url service_col team_col : string) (verbose : bool)
    (row_list : list string) (chunk_size : nat) (mapping : pydict) (start : nat)
    : M pydict :=
  let chunk := take chunk_size (drop start row_list) in
  do resp <- http srv (RowsGet rows_url (row_id_params chunk));
  run when verbose
        (print_words ["ROWS:"; request_url resp; pretty (status_code resp);
                      String.substring 0 200 (text resp)]);
  lift (rows_response service_col team_col mapping resp).

(** [get_reference_table_rows_by_id] with its local [chunk_size] (a
    positive number) as an argument. *)
Definition rows_by_id_chunked (chunk_size : nat) (rows_url : string)
    (row_ids : list string) (service_col team_col : string) (verbose : bool)
    : M pydict :=
  let row_list := filter (fun r => r ≠ "") row_ids in
  match row_list with
  | [] => mret []
  | _ =>
      mfold (rows_chunk rows_url service_col team_col verbose row_list chunk_size)
            [] (py_range 0 (length row_list) chunk_size)
  end.

Definition get_reference_table_rows_by_id :
    string -> list string -> string -> string -> bool -> M pydict :=
  rows_by_id_chunked 100.

Definition create_row_payload (service_col team_col service team : string) : json :=
  JObj [("data",
         JArr [JObj [("type", JStr "row");
                     ("id", JStr service);
                     ("attributes",
                      JObj [("values",
                             JObj (List.map (fun kv => (fst kv, JStr (snd kv)))
                                     (dict_set team_col team [(service_col, service)])))])]])].

(** The body of [for service, team in rows.items()], lines 294-314. *)
Definition create_row (rows_url service_col team_col : string)
    (acc : nat * list string) (row : string * string) : M (nat * list string) :=
  let '(created, failures) := acc in
  let '(service, team) := row in
  do resp <- http srv (RowsPost rows_url
                         (create_row_payload service_col team_col service team));
  if (status_code resp =? 200)%Z || (status_code resp =? 201)%Z then
    mret (S created, failures)
  else if (status_code resp =? 409)%Z then mret (created, failures)
  else mret (created,
             failures ++ [service +:+ ": " +:+ pretty (status_code resp)
                            +:+ " " +:+ text resp]).

Definition create_reference_table_rows (rows_url service_col team_col : string)
    (rows : pydict) : M (nat * list string) :=
  mfold (create_row rows_url service_col team_col) (O, []) rows.

(** ** Service catalog (source lines 322-340) *)

Definition definition_payload (service team : string) : json :=
  JObj [("schema-version", JStr "v2.2"); ("dd-service", JStr service);
        ("team", JStr team)].

Definition upsert_service_definition (base_url service team : string) (verbose : bool)
    : M (bool * string) :=
  let url := base_url +:+ "/api/v2/services/definitions" in
  do resp <- http srv (DefinitionsPost url (definition_payload service team));
  if (status_code resp =? 200)%Z || (status_code resp =? 201)%Z then
    mret (true, "created_or_updated")
  else mret (false, pretty (status_code resp) +:+ " " +:+ text resp).
End ReferenceTables.

(** ** Base URL (source lines 35-41) *)

Definition build_api_base (site : option string) : string :=
  let site := strip (default "" site) in
  if String.prefix "http://" site || String.prefix "https://" site then
    rstrip_with (fun c => Ascii.eqb c "/"%char) site
  else if String.prefix "api." site then "https://" +:+ site
  else "https://api." +:+ site.

(** ** CLI / main (source lines 346-488) *)

(** What [os.getenv] and the clock give. [window days] is the pair
    [(start.isoformat(), end.isoformat())] of lines 396-397. *)
Record environ := {
  DD_API_KEY : option string;
  DD_APP_KEY : option string;
  DD_SITE : option string;
  REF_TABLE_NAME : option string;
  REF_TABLE_ID : option string;
  REF_TABLE_COL_1 : option string;
  REF_TABLE_COL_2 : option string;
  window : Z -> string * string
}.

(** The namespace [parse_args] returns. *)
Record arguments := {
  arg_table : option string;
  arg_service_col : option string;
  arg_team_col : option string;
  arg_days : Z;
  arg_query : string;
  arg_page_limit : Z;
  arg_max_pages : option Z;
  arg_verbose : bool;
  arg_list_tables : bool;
  arg_dry_run : bool
}.

(** The order in which the interpreter enumerates a [set]: some
    rearrangement of its elements, fixed for one run. *)
Record set_order := {
  enum :> list string -> list string;
  enum_perm : forall l, enum l ≡ₚ l
}.

(** [a or b] on optional strings ([None] and [""] are falsy). *)
Definition str_or (a : option string) (b : string) : string :=
  match a with
  | Some s => if String.eqb s "" then b else s
  | None => b
  end.

(** The counters of lines 457-460. *)
Record tally := {
  updated : nat;
  skipped : nat;
  failures : nat;
  missing_team : list string
}.

(** What the last lines of [main] print: the counters and [len(services)]. *)
Record summary := { found : nat; counts : tally }.

(** [(mapping.get(service) or "").strip()] *)
Definition team_of (mapping : pydict) (service : string) : string :=
  strip (default "" (assoc_get service mapping)).

Section Main.
Variable srv : oracle.
Variable order : set_order.

(** Lines 433-455: placeholder teams for the services without a row. *)
Definition fill_gaps (rows_url service_col team_col : string) (dry_run verbose : bool)
    (services : pyset) (mapping : pydict) : M pydict :=
  let missing_services := filter (fun s => dict_mem s mapping = false) (order services) in
  let dummy_rows := assign_dummy_teams missing_services in
  match dummy_rows with
  | [] => mret mapping
  | _ =>
      if dry_run then
        run when verbose
              (print ("DRY RUN: would create " +:+ pretty (length dummy_rows)
                        +:+ " reference table rows"));
        mret (dict_update mapping dummy_rows)
      else
        do cf <- create_reference_table_rows srv rows_url service_col team_col dummy_rows;
        run when verbose (print ("Reference table rows created: " +:+ pretty (fst cf)));
        run match snd cf with
            | [] => mret tt
            | fs =>
                run print "Reference table insert failures:";
                mfold (fun _ f => print ("- " +:+ f)) tt fs
            end;
        mret (dict_update mapping dummy_rows)
  end.

(** The body of [for service in sorted(services)], lines 463-478. *)
Definition upsert_step (base_url : string) (dry_run verbose : bool) (mapping : pydict)
    (t : tally) (service : string) : M tally :=
  let team := team_of mapping service in
  if String.eqb team "" then
    mret {| updated := updated t; skipped := S (skipped t); failures := failures t;
            missing_team := missing_team t ++ [service] |}
  else if dry_run then
    mret {| updated := S (updated t); skipped := skipped t; failures := failures t;
            missing_team := missing_team t |}
  else
    do r <- upsert_service_definition srv base_url service team verbose;
    if fst r then
      mret {| updated := S (updated t); skipped := skipped t; failures := failures t;
              missing_team := missing_team t |}
    else
      run print ("FAILED " +:+ service +:+ ": " +:+ snd r);
      mret {| updated := updated t; skipped := skipped t; failures := S (failures t);
              missing_team := missing_team t |}.

(** Lines 457-478. *)
Definition upsert_pass (base_url : string) (dry_run verbose : bool)
    (services : pyset) (mapping : pydict) : M tally :=
  mfold (upsert_step base_url dry_run verbose mapping)
        {| updated := O; skipped := O; failures := O; missing_team := [] |}
        (sorted services).

(** Lines 480-488. *)
Definition print_summary (s : summary) : M unit :=
  run print ("Services found: " +:+ pretty (found s));
  run print ("Updated: " +:+ pretty (updated (counts s)));
  run print ("Skipped (no mapping): " +:+ pretty (skipped (counts s)));
  run print ("Failures: " +:+ pretty (failures (counts s)));
  match missing_team (counts s) with
  | [] => mret tt
  | ms =>
      run print "Missing mappings (no team):";
      mfold (fun _ s => print ("- " +:+ s)) tt ms
  end.

(** Lines 421-488: the pipeline once the services and the table are known. *)
Definition reconcile (base_url : string) (table_id : json) (service_col team_col : string)
    (dry_run verbose : bool) (services : pyset) : M summary :=
  let rows_url := get_reference_table_rows_endpoint base_url table_id in
  do mapping <- get_reference_table_rows_by_id srv rows_url (order services)
                  service_col team_col verbose;
  do mapping <- fill_gaps rows_url service_col team_col dry_run verbose services mapping;
  do t <- upsert_pass base_url dry_run verbose services mapping;
  let s := {| found := length services; counts := t |} in
  run print_summary s;
  mret s.

(** [main]; the result is the summary it prints, or [None] where it
    returns before the pipeline runs. *)
Definition main (fuel : nat) (env : environ) (args : arguments) : M (option summary) :=
  let table_name := default "reference_table" (REF_TABLE_NAME env) in
  let service_col := default "service" (REF_TABLE_COL_1 env) in
  let team_col := default "team" (REF_TABLE_COL_2 env) in
  if String.eqb (str_or (DD_API_KEY env) "") "" || String.eqb (str_or (DD_APP_KEY env) "") ""
  then raise (SystemExit "DD_API_KEY and DD_APP_KEY must be set in your environment/.env")
  else
    let base_url := build_api_base (Some (default "datadoghq.com" (DD_SITE env))) in
    let table_name := str_or (arg_table args) table_name in
    let service_col := str_or (arg_service_col args) service_col in
    let team_col := str_or (arg_team_col args) team_col in
    if arg_list_tables args then
      do tables <- list_reference_tables srv fuel base_url;
      match tables with
      | [] => run print "No reference tables found."; mret None
      | _ =>
          run print "Reference tables:";
          run mfold (fun _ t =>
                       print ("- " +:+ py_str (t_id t) +:+ "  name="
                                +:+ py_str (py_or (t_name t) (JStr "(no name)"))))
                    tt tables;
          mret None
      end
    else
      let '(start_iso, end_iso) := window env (arg_days args) in
      do services <- list_services_from_events srv base_url start_iso end_iso
                       (arg_query args) (arg_page_limit args) (arg_max_pages args)
                       (arg_verbose args) fuel;
      match services with
      | [] =>
          run print "No services found in events for the given query/time window.";
          mret None
      | _ =>
          do table_id <-
            match REF_TABLE_ID env with
            | Some (String c s) => mret (JStr (String c s))
            | _ => get_reference_table_id srv fuel base_url table_name (arg_verbose args)
            end;
          do s <- reconcile base_url table_id service_col team_col
                    (arg_dry_run args) (arg_verbose args) services;
          mret (Some s)
      end.
End Main.

(** * Properties *)

(** ** Sets, dicts and sorting *)

Lemma String_eqb_eq_false (a b : string) : a ≠ b -> String.eqb a b = false.
Proof. intros H. apply String.eqb_neq. exact H. Qed.

Lemma py_set_acc (l acc : list string) :
  NoDup acc ->
  NoDup (foldl (fun s x => set_add x s) acc l)
  /\ forall x, x ∈ foldl (fun s x => set_add x s) acc l <-> x ∈ acc \/ x ∈ l.
Proof.
  revert acc. induction l as [|y l IH]; intros acc Hnd; simpl.
  - split; [exact Hnd|]. intros x. rewrite elem_of_nil. tauto.
  - assert (Hadd : NoDup (set_add y acc)).
    { unfold set_add. case_decide; [exact Hnd|].
      apply NoDup_app. repeat split; [exact Hnd| |apply NoDup_singleton].
      intros z Hz Hz'. apply list_elem_of_singleton in Hz'. subst. contradiction. }
    destruct (IH _ Hadd) as [H1 H2]. split; [exact H1|].
    intros x. rewrite H2, elem_of_cons. unfold set_add.
    case_decide as Hin.
    + split; [tauto|]. intros [?|[->|?]]; tauto.
    + rewrite elem_of_app, list_elem_of_singleton. tauto.
Qed.

Lemma NoDup_py_set (l : list string) : NoDup (py_set l).
Proof. apply (py_set_acc l []), NoDup_nil_2. Qed.

Lemma elem_of_py_set (l : list string) (x : string) : x ∈ py_set l <-> x ∈ l.
Proof.
  unfold py_set. destruct (py_set_acc l [] (NoDup_nil_2)) as [_ H].
  rewrite H, elem_of_nil. tauto.
Qed.

Lemma sorted_perm (l : list string) : sorted l ≡ₚ l.
Proof. apply merge_sort_Permutation. Qed.

Lemma sorted_Sorted (l : list string) : Sorted String.le (sorted l).
Proof. apply (Sorted_merge_sort String.le). Qed.

Lemma elem_of_sorted (l : list string) (x : string) : x ∈ sorted l <-> x ∈ l.
Proof. by rewrite sorted_perm. Qed.

Lemma NoDup_sorted (l : list string) : NoDup l -> NoDup (sorted l).
Proof. by rewrite sorted_perm. Qed.

(** Sorting forgets the order of its argument. *)
Lemma sorted_ext (l1 l2 : list string) :
  NoDup l1 -> NoDup l2 -> (forall x, x ∈ l1 <-> x ∈ l2) -> sorted l1 = sorted l2.
Proof.
  intros H1 H2 H. apply (Sorted_unique String.le); try apply sorted_Sorted.
  rewrite !sorted_perm. by apply NoDup_Permutation.
Qed.

Lemma assoc_get_None {V} (k : string) (m : list (string * V)) :
  assoc_get k m = None <-> k ∉ m.*1.
Proof.
  induction m as [|[k' v] m IH]; simpl.
  - split; [intros _; apply not_elem_of_nil | done].
  - rewrite not_elem_of_cons. destruct (String.eqb_spec k k') as [->|Hne].
    + split; [done | intros [? _]; done].
    + rewrite IH. tauto.
Qed.

Lemma dict_set_fresh (k v : string) (d : pydict) :
  k ∉ d.*1 -> dict_set k v d = d ++ [(k, v)].
Proof.
  induction d as [|[k' v'] d IH]; simpl; [done|].
  rewrite not_elem_of_cons. intros [Hne Hd].
  rewrite (String_eqb_eq_false _ _ Hne). by rewrite IH.
Qed.

Lemma assoc_get_dict_set (k k' v : string) (d : pydict) :
  assoc_get k' (dict_set k v d) = if String.eqb k' k then Some v else assoc_get k' d.
Proof.
  induction d as [|[k0 v0] d IH]; simpl; [done|].
  destruct (String.eqb_spec k k0) as [->|Hne]; simpl.
  - destruct (String.eqb_spec k' k0); done.
  - destruct (String.eqb_spec k' k0) as [->|Hne'].
    + by rewrite (String_eqb_eq_false _ _ (not_eq_sym Hne)).
    + exact IH.
Qed.

Lemma assoc_get_dict_update (k : string) (d e : pydict) :
  assoc_get k (dict_update d e) =
  match assoc_get k (reverse e) with Some v => Some v | None => assoc_get k d end.
Proof.
  unfold dict_update. revert d. induction e as [|[k0 v0] e IH]; intros d; simpl; [done|].
  rewrite IH, reverse_cons, assoc_get_dict_set.
  assert (Happ : forall (m1 m2 : pydict),
             assoc_get k (m1 ++ m2) =
             match assoc_get k m1 with Some v => Some v | None => assoc_get k m2 end).
  { intros m1 m2. induction m1 as [|[a b] m1 IHm]; simpl; [done|].
    destruct (String.eqb k a); [done | exact IHm]. }
  rewrite Happ. simpl. destruct (assoc_get k (reverse e)); [done|].
  destruct (String.eqb k k0); done.
Qed.

(** ** Gap filler *)

Definition rotation (i : nat) (s : string) : string * string :=
  (s, teams !!! (i mod length teams)%nat).

Lemma foldl_rotation (ks : list string) (n : nat) (acc : pydict) :
  NoDup ks -> (forall k, k ∈ ks -> k ∉ acc.*1) ->
  foldl (fun assigned '(idx, service) =>
           dict_set service (teams !!! (idx mod length teams)%nat) assigned)
        acc (zip (seq n (length ks)) ks)
  = acc ++ imap (fun i => rotation (n + i)) ks.
Proof.
  revert n acc. induction ks as [|k ks IH]; intros n acc Hnd Hfresh; simpl.
  - by rewrite app_nil_r.
  - apply NoDup_cons in Hnd as [Hk Hnd].
    rewrite dict_set_fresh by (apply Hfresh; left).
    rewrite IH; [|exact Hnd|].
    + rewrite <- app_assoc. simpl. unfold rotation at 2. rewrite Nat.add_0_r.
      do 2 f_equal. apply imap_ext. intros i x _. simpl. f_equal. lia.
    + intros k' Hk'. rewrite fmap_app, not_elem_of_app. split.
      * apply Hfresh. by right.
      * simpl. rewrite list_elem_of_singleton. intros ->. contradiction.
Qed.

Lemma assign_dummy_teams_imap (services : list string) :
  assign_dummy_teams services
  = imap rotation (sorted (py_set (filter (fun s => s ≠ "") services))).
Proof.
  unfold assign_dummy_teams, enumerate.
  rewrite foldl_rotation.
  - reflexivity.
  - apply NoDup_sorted, NoDup_py_set.
  - intros k _. apply not_elem_of_nil.
Qed.

(** C2: the gap filler depends only on the set of its input.  The
    distinct non-empty identifiers are sorted, the one at position [i]
    gets [teams[i mod 2]], and two inputs with the same members get the
    same assignment. *)
Theorem assign_dummy_teams_deterministic (l1 l2 : list string) :
  (forall s, s ∈ l1 <-> s ∈ l2) ->
  exists ks : list string,
    Sorted String.le ks /\ NoDup ks
    /\ (forall s, s ∈ ks <-> s ∈ l1 /\ s ≠ "")
    /\ assign_dummy_teams l1 = imap (fun i s => (s, teams !!! (i mod 2)%nat)) ks
    /\ assign_dummy_teams l2 = assign_dummy_teams l1.
Proof.
  intros Hsame.
  exists (sorted (py_set (filter (fun s => s ≠ "") l1))).
  split; [apply sorted_Sorted|].
  split; [apply NoDup_sorted, NoDup_py_set|].
  split; [|split].
  - intros s. rewrite elem_of_sorted, elem_of_py_set, list_elem_of_filter. tauto.
  - apply assign_dummy_teams_imap.
  - rewrite !assign_dummy_teams_imap. f_equal.
    apply sorted_ext; try apply NoDup_py_set.
    intros x. rewrite !elem_of_py_set, !list_elem_of_filter, Hsame. tauto.
Qed.

Lemma assign_dummy_teams_deterministic_witness :
  (forall s, s ∈ ["c"; "b"; ""; "c"] <-> s ∈ ["b"; "c"; ""])
  /\ assign_dummy_teams ["b"; "c"; ""] = [("b", "team 1"); ("c", "team 2")]
  /\ assign_dummy_teams ["c"; "b"; ""; "c"] = [("b", "team 1"); ("c", "team 2")].
Proof.
  assert (H : forall s, s ∈ ["c"; "b"; ""; "c"] <-> s ∈ ["b"; "c"; ""]).
  { intros s. rewrite !elem_of_cons, !elem_of_nil. tauto. }
  split; [exact H|].
  destruct (assign_dummy_teams_deterministic _ _ H) as (ks & _ & _ & _ & _ & Heq).
  rewrite Heq. split; reflexivity.
Defined.

(** ** Service extractor *)

(** The fields of an event record that the extractor looks at:
    [attributes.attributes.service] and [attributes.tags]. *)
Definition event_attrs (event : json) : result json :=
  let? a := py_get event "attributes" (JObj []) in
  Ok (py_or a (JObj [])).

Definition event_service (event : json) : result json :=
  let? attrs := event_attrs event in
  let? n := py_get attrs "attributes" (JObj []) in
  py_get (py_or n (JObj [])) "service" JNull.

Definition event_tags (event : json) : result json :=
  let? attrs := event_attrs event in
  let? t := py_get attrs "tags" (JArr []) in
  Ok (py_or t (JArr [])).

(** The name a tag contributes, if any. *)
Definition tag_name (tag : string) : option string :=
  if String.prefix "service:" tag then Some (str_drop 8 tag) else None.

Lemma substring_all (s : string) : String.substring 0 (String.length s) s = s.
Proof. induction s as [|c s IH]; simpl; [done | by rewrite IH]. Qed.

Lemma prefix_append (p s : string) : String.prefix p (p +:+ s) = true.
Proof.
  induction p as [|c p IH]; simpl.
  - by destruct s.
  - destruct (ascii_dec c c); [exact IH | done].
Qed.

Lemma str_drop_append (p s : string) : str_drop (String.length p) (p +:+ s) = s.
Proof.
  unfold str_drop. induction p as [|c p IH]; simpl.
  - rewrite Nat.sub_0_r. apply substring_all.
  - exact IH.
Qed.

Lemma prefix_split (p s : string) :
  String.prefix p s = true -> s = p +:+ str_drop (String.length p) s.
Proof.
  revert s. induction p as [|c p IH]; intros s H.
  - simpl. unfold str_drop. simpl. rewrite Nat.sub_0_r. by rewrite substring_all.
  - destruct s as [|d s]; simpl in H; [done|].
    destruct (ascii_dec c d) as [->|]; [|done].
    simpl. f_equal. rewrite (IH s H) at 1. f_equal.
Qed.

Lemma tag_name_spec (tag name : string) :
  tag_name tag = Some name <-> tag = "service:" +:+ name.
Proof.
  unfold tag_name. split.
  - destruct (String.prefix "service:" tag) eqn:Hp; [|done].
    intros [= <-]. exact (prefix_split "service:" tag Hp).
  - intros ->. rewrite prefix_append. f_equal. exact (str_drop_append "service:" name).
Qed.

Lemma str_cut_prefix (sep s : string) :
  String.prefix sep s = true ->
  str_cut sep s = Some ("", str_drop (String.length sep) s).
Proof. intros H. destruct s; cbn [str_cut]; by rewrite H. Qed.

Lemma extract_tags (services : pyset) (ts : list string) :
  ofold (fun services tag =>
           let? hit := py_startswith tag "service:" in
           if hit then
             let? parts := py_split1 tag "service:" in
             let? name := py_index parts 1 in
             Ok (set_add name services)
           else Ok services)
        services (JStr <$> ts)
  = Ok (foldl (fun s x => set_add x s) services (omap tag_name ts)).
Proof.
  revert services. induction ts as [|t ts IH]; intros services; [done|].
  cbn [fmap list_fmap ofold omap list_omap py_startswith obind].
  unfold tag_name at 1. destruct (String.prefix "service:" t) eqn:Hp.
  - cbn [py_split1 obind]. unfold str_split1.
    rewrite (str_cut_prefix _ _ Hp). cbn. apply IH.
  - apply IH.
Qed.

(** C1: first match wins.  When [attributes.attributes.service] is truthy
    the record adds exactly [str] of that value, whatever its tags are;
    otherwise every tag ["service:<name>"], and no other tag, adds its
    [<name>]. *)
Theorem extract_event_precedence (services : pyset) (event svc : json) :
  event_service event = Ok svc ->
  (forall tag name, tag_name tag = Some name <-> tag = "service:" +:+ name)
  /\ if truthy svc then
       extract_event services event = Ok (set_add (py_str svc) services)
     else forall ts : list string,
         event_tags event = Ok (JArr (JStr <$> ts)) ->
         extract_event services event
         = Ok (foldl (fun s x => set_add x s) services (omap tag_name ts)).
Proof.
  intros Hsvc. split; [exact tag_name_spec|]. revert Hsvc.
  unfold event_service, event_tags, event_attrs, extract_event.
  destruct (py_get event "attributes" (JObj [])) as [a|] eqn:Ha; try done.
  cbn [obind].
  destruct (py_get (py_or a (JObj [])) "attributes" (JObj [])) as [n|] eqn:Hn; try done.
  cbn [obind]. intros ->. cbn [obind].
  destruct (truthy svc); [done|].
  intros ts.
  destruct (py_get (py_or a (JObj [])) "tags" (JArr [])) as [t|]; try done.
  cbn [obind]. intros [= ->]. cbn [py_iter obind]. apply extract_tags.
Qed.

Definition event_both : json :=
  JObj [("attributes",
         JObj [("attributes", JObj [("service", JStr "web")]);
               ("tags", JArr [JStr "service:api"; JStr "env:prod"])])].

Definition event_tags_only : json :=
  JObj [("attributes",
         JObj [("tags", JArr [JStr "service:api"; JStr "env:prod"; JStr "service:db"])])].

Lemma extract_event_precedence_witness :
  (event_service event_both = Ok (JStr "web")
   /\ extract_event [] event_both = Ok ["web"])
  /\ (event_service event_tags_only = Ok JNull
      /\ extract_event [] event_tags_only = Ok ["api"; "db"]).
Proof.
  split; (split; [reflexivity|]).
  - exact (proj2 (extract_event_precedence [] event_both (JStr "web") eq_refl)).
  - exact (proj2 (extract_event_precedence [] event_tags_only JNull eq_refl)
             ["service:api"; "env:prod"; "service:db"] eq_refl).
Defined.

(** ** Paginated fetcher *)




Section EventsFacts.
Variable srv : oracle.
Variables (base_url start_iso end_iso query : string) (limit : Z).
Variables (max_pages : option Z) (verbose : bool).

Definition over_max (page : Z) : bool :=
  match max_pages with Some mp => (mp <? page)%Z | None => false end.

(** The request of a page: it carries [cursor] unless that is falsy. *)
Definition page_request (cursor : json) : request :=
  EventsSearch (events_url base_url)
    (events_body start_iso end_iso query limit
       (if truthy cursor then Some cursor else None)).

Let iteration := events_iteration srv base_url start_iso end_iso query limit
                   max_pages verbose.
Let pages := events_pages srv base_url start_iso end_iso query limit
               max_pages verbose.

Lemma events_iteration_stop (page : Z) (cursor : json) (bc : option json)
    (services : pyset) (w : world) :
  over_max page = true ->
  (iteration page cursor bc services w).1 = Ret (inl services)
  /\ calls (iteration page cursor bc services w).2 = calls w.
Proof.
  unfold iteration, events_iteration, over_max. intros ->.
  destruct verbose; done.
Qed.








End EventsFacts.

Definition w0 : world := {| calls := []; stdout := [] |}.

Definition ok_json (body : json) : response :=
  {| status_code := 200; text := ""; json_body := Some body; request_url := "" |}.

Definition page_with_cursor (c : string) : json :=
  JObj [("data", JArr []); ("meta", JObj [("page", JObj [("after", JStr c)])])].

(** A source with two pages. *)
Definition srv_two_pages : oracle :=
  fun hist _ =>
    match hist with
    | [] => ok_json (page_with_cursor "c1")
    | _ => ok_json (JObj [("data", JArr [event_both])])
    end.







(** ** Mapping resolver *)

Definition to_outcome {A} (r : result A) : outcome A :=
  match r with
  | Ok a => Ret a
  | Err e => Raise e
  end.

Lemma ofold_app {A B} (f : A -> B -> result A) (a : A) (l1 l2 : list B) :
  ofold f a (l1 ++ l2) = let? a' := ofold f a l1 in ofold f a' l2.
Proof.
  revert a. induction l1 as [|x l1 IH]; intros a; cbn [ofold app obind]; [done|].
  destruct (f a x); cbn [obind]; [apply IH | done].
Qed.

(** The chunks of the loop at lines 250-251. *)
Definition chunks (k : nat) (l : list string) : list (list string) :=
  List.map (fun start => take k (drop start l)) (py_range 0 (length l) k).

Lemma range_from_concat (k : nat) (l : list string) (fuel start : nat) :
  (0 < k)%nat -> (length l - start <= fuel)%nat ->
  concat (List.map (fun s => take k (drop s l)) (range_from fuel start (length l) k))
  = drop start l.
Proof.
  intros Hk. revert start. induction fuel as [|fuel IH]; intros start Hf; cbn [range_from].
  - cbn. symmetry. apply drop_ge. lia.
  - destruct (Nat.ltb_spec start (length l)) as [Hlt|Hge].
    + cbn [List.map concat]. rewrite IH by lia.
      rewrite <- (drop_drop l k start). apply take_drop.
    + cbn. symmetry. apply drop_ge. lia.
Qed.

Lemma chunks_concat (k : nat) (l : list string) : (0 < k)%nat -> concat (chunks k l) = l.
Proof.
  intros Hk. unfold chunks, py_range. rewrite range_from_concat by lia. apply drop_0.
Qed.

Lemma chunks_bound (k : nat) (l : list string) :
  Forall (fun c => (length c <= k)%nat) (chunks k l).
Proof.
  unfold chunks. apply Forall_forall. intros c Hc.
  apply list_elem_of_In, in_map_iff in Hc as (s & <- & _). rewrite length_take. lia.
Qed.

Lemma chunks_250 (l : list string) :
  length l = 250%nat -> List.map length (chunks 100 l) = [100; 100; 50]%nat.
Proof.
  intros Hl. unfold chunks. rewrite Hl.
  change (py_range 0 250 100) with [0; 100; 200]%nat.
  cbn [List.map]. rewrite !length_take, !length_drop, Hl. reflexivity.
Qed.

Lemma row_id_params_ids (ids : list string) : (row_id_params ids).*2 = ids.
Proof. unfold row_id_params. induction ids as [|i ids IH]; cbn; [done | by rewrite IH]. Qed.

Section ResolverFacts.
Variable srv : oracle.
Variables (rows_url service_col team_col : string) (verbose : bool).

Definition chunk_request (chunk : list string) : request :=
  RowsGet rows_url (row_id_params chunk).

Let chunk_step := rows_chunk srv rows_url service_col team_col verbose.

Lemma rows_chunk_run (row_list : list string) (k : nat) (mapping : pydict)
    (start : nat) (w : world) :
  let req := chunk_request (take k (drop start row_list)) in
  (chunk_step row_list k mapping start w).1
  = to_outcome (rows_response service_col team_col mapping (srv (calls w) req))
  /\ calls (chunk_step row_list k mapping start w).2 = calls w ++ [req].
Proof.
  unfold chunk_step, rows_chunk, chunk_request, mbind, http, when, print_words, print,
    lift, mret, raise.
  destruct verbose; cbn [calls stdout];
    destruct (rows_response _ _ _ _); done.
Qed.

(** One lookup per chunk, in order; the loop stops early only by
    raising. *)
Lemma rows_loop_calls (row_list : list string) (k : nat) (starts : list nat)
    (mapping : pydict) (w : world) :
  let r := mfold (chunk_step row_list k) mapping starts w in
  let reqs := List.map (fun s => chunk_request (take k (drop s row_list))) starts in
  r.1 ≠ OutOfFuel
  /\ (exists n, calls r.2 = calls w ++ take n reqs)
  /\ (forall m, r.1 = Ret m -> calls r.2 = calls w ++ reqs).
Proof.
  cbv zeta. revert mapping w.
  induction starts as [|s starts IH]; intros mapping w; cbn [mfold List.map].
  - cbn. rewrite app_nil_r. split; [done|]. split; [by exists 0%nat; rewrite app_nil_r|done].
  - unfold mbind. destruct (rows_chunk_run row_list k mapping s w) as [H1 H2].
    destruct (chunk_step row_list k mapping s w) as [o w1]. cbn [fst snd] in H1, H2.
    destruct o as [m1|e|].
    + destruct (IH m1 w1) as (Hf & [n Hn] & Hr). split; [done|]. split.
      * exists (S n). rewrite Hn, H2, <- app_assoc. done.
      * intros m Hm. rewrite (Hr m Hm), H2, <- app_assoc. done.
    + cbn [fst snd]. split; [done|]. split; [|done].
      exists 1%nat. by rewrite H2.
    + by destruct (rows_response _ _ _ _).
Qed.

(** A store that answers a lookup with the rows of the identifiers
    asked for, in the order asked, or with the not-found signal when
    there are none. *)
Definition answers_rows (resp : response) (rows : list json) : Prop :=
  (status_code resp = 200%Z
   /\ exists m, json_body resp = Some (JObj m) /\ assoc_get "data" m = Some (JArr rows))
  \/ (rows = [] /\ status_code resp = 404%Z
      /\ exists payload, json_body resp = Some payload
                         /\ has_not_found_marker payload = Ok true).

Definition row_store (row_of : string -> list json) : Prop :=
  forall hist ids, ids ≠ [] ->
    answers_rows (srv hist (chunk_request ids)) (flat_map row_of ids).

Lemma rows_response_store (resp : response) (rows : list json) (mapping : pydict) :
  answers_rows resp rows ->
  rows_response service_col team_col mapping resp
  = ofold (rows_item service_col team_col) mapping rows.
Proof.
  unfold rows_response, resp_json, rows_payload.
  intros [(-> & m & -> & Hd)|(-> & -> & payload & -> & Hm)]; cbn -[has_not_found_marker].
  - rewrite Hd. cbn. unfold py_or. by destruct rows.
  - by rewrite Hm.
Qed.

Lemma rows_loop_store (row_of : string -> list json) (row_list : list string) (k : nat) :
  row_store row_of -> (0 < k)%nat ->
  forall fuel start mapping w,
    (length row_list - start <= fuel)%nat ->
    (mfold (chunk_step row_list k) mapping
       (range_from fuel start (length row_list) k) w).1
    = to_outcome (ofold (rows_item service_col team_col) mapping
                    (flat_map row_of (drop start row_list))).
Proof.
  intros Hstore Hk. induction fuel as [|fuel IH]; intros start mapping w Hf;
    cbn [range_from].
  - rewrite drop_ge by lia. done.
  - destruct (Nat.ltb_spec start (length row_list)) as [Hlt|Hge].
    2:{ rewrite drop_ge by lia. done. }
    cbn [mfold]. unfold mbind.
    destruct (rows_chunk_run row_list k mapping start w) as [H1 H2].
    destruct (chunk_step row_list k mapping start w) as [o w1]. cbn [fst snd] in H1, H2.
    assert (Hne : take k (drop start row_list) ≠ []).
    { intros Hnil. apply (f_equal length) in Hnil.
      rewrite length_take, length_drop in Hnil. cbn in Hnil. lia. }
    rewrite (rows_response_store _ _ mapping (Hstore (calls w) _ Hne)) in H1.
    rewrite <- (take_drop k (drop start row_list)), flat_map_app, ofold_app.
    rewrite drop_drop.
    destruct (ofold _ mapping (flat_map row_of (take k (drop start row_list))))
      as [m1|e]; cbn [to_outcome obind] in *; subst o.
    + apply IH. lia.
    + done.
Qed.

Lemma rows_by_id_chunked_loop (k : nat) (row_ids : list string) (w : world) :
  let row_list := filter (fun r => r ≠ "") row_ids in
  rows_by_id_chunked srv k rows_url row_ids service_col team_col verbose w
  = mfold (chunk_step row_list k) [] (py_range 0 (length row_list) k) w.
Proof.
  cbv zeta. unfold rows_by_id_chunked.
  destruct (filter (fun r => r ≠ "") row_ids); done.
Qed.

(** C3, amended: the identifiers are cut into consecutive chunks of at
    most 100 and each chunk is looked up once, in order; 250
    identifiers make chunks of 100, 100 and 50.  Provided the store
    answers every lookup with exactly the rows of the identifiers asked
    for, in the order asked (or with the not-found signal when none of
    them has a row), the result is the one of the rows of all
    identifiers taken together, whatever the chunk size. *)
Theorem resolver_chunking (row_ids : list string) (w : world) :
  let row_list := filter (fun r => r ≠ "") row_ids in
  let r := get_reference_table_rows_by_id srv rows_url row_ids service_col team_col
             verbose w in
  let reqs := chunk_request <$> chunks 100 row_list in
  concat (chunks 100 row_list) = row_list
  /\ Forall (fun c => (length c <= 100)%nat) (chunks 100 row_list)
  /\ (exists n, calls r.2 = calls w ++ take n reqs)
  /\ (forall m, r.1 = Ret m -> calls r.2 = calls w ++ reqs)
  /\ (length row_list = 250%nat ->
      length <$> chunks 100 row_list = [100; 100; 50]%nat)
  /\ (forall row_of, row_store row_of -> forall k, (0 < k)%nat ->
      (rows_by_id_chunked srv k rows_url row_ids service_col team_col verbose w).1 = r.1
      /\ r.1 = to_outcome (ofold (rows_item service_col team_col) []
                             (flat_map row_of row_list))).
Proof.
  cbv zeta. unfold get_reference_table_rows_by_id.
  rewrite (rows_by_id_chunked_loop 100).
  set (row_list := filter (fun r => r ≠ "") row_ids).
  destruct (rows_loop_calls row_list 100 (py_range 0 (length row_list) 100) [] w)
    as (_ & Hpre & Hall).
  assert (Hreqs : chunk_request <$> chunks 100 row_list
                  = List.map (fun s => chunk_request (take 100 (drop s row_list)))
                      (py_range 0 (length row_list) 100)).
  { unfold chunks. by rewrite <- list_fmap_compose. }
  rewrite Hreqs.
  split; [apply chunks_concat; lia|].
  split; [apply chunks_bound|].
  split; [exact Hpre|]. split; [exact Hall|].
  split; [apply chunks_250|].
  intros row_of Hstore k Hk. rewrite (rows_by_id_chunked_loop k).
  fold row_list. unfold py_range.
  rewrite !(rows_loop_store row_of row_list _ Hstore) by lia.
  by rewrite drop_0.
Qed.

(** [payload] of lines 262-265. *)
Definition not_found_payload (resp : response) : json :=
  match json_body resp with Some p => p | None => JObj [] end.

(** C4, amended: a chunk answered with status 404 and a non-null
    [meta.not_found] adds nothing and the loop goes on with the next
    chunk; status 401, status 404 without that marker and any other
    status of 400 or more raise, and no further lookup is issued. *)
Theorem not_found_chunk_is_skipped (row_list : list string) (mapping : pydict)
    (start : nat) (rest : list nat) (w : world) :
  let req := chunk_request (take 100 (drop start row_list)) in
  let resp := srv (calls w) req in
  let loop := mfold (chunk_step row_list 100) in
  let r := loop mapping (start :: rest) w in
  let w1 := (chunk_step row_list 100 mapping start w).2 in
  calls w1 = calls w ++ [req]
  /\ (status_code resp = 404%Z ->
      has_not_found_marker (not_found_payload resp) = Ok true ->
      r = loop mapping rest w1)
  /\ (status_code resp = 401%Z
      \/ (status_code resp = 404%Z
          /\ has_not_found_marker (not_found_payload resp) ≠ Ok true)
      \/ (400 <= status_code resp)%Z /\ status_code resp ≠ 404%Z ->
      exists e, r.1 = Raise e /\ calls r.2 = calls w ++ [req]).
Proof.
  cbv zeta. cbn [mfold]. unfold mbind.
  destruct (rows_chunk_run row_list 100 mapping start w) as [H1 H2].
  destruct (chunk_step row_list 100 mapping start w) as [o w1]. cbn [fst snd] in *.
  split; [done|]. unfold rows_response in H1. fold (not_found_payload
    (srv (calls w) (chunk_request (take 100 (drop start row_list))))) in H1.
  split.
  - intros H404 Hm. rewrite H404, Hm in H1. cbn in H1. by subst o.
  - intros [H401|[[H404 Hm]|[Hge Hne]]].
    + rewrite H401 in H1. cbn in H1. subst o. eauto.
    + rewrite H404 in H1. cbn [Z.eqb Pos.eqb] in H1.
      destruct (has_not_found_marker _) as [[]|e]; cbn in H1; subst o; eauto.
      done.
    + destruct (Z.eqb_spec (status_code (srv (calls w)
                  (chunk_request (take 100 (drop start row_list))))) 401);
        [subst o; eauto|].
      destruct (Z.eqb_spec (status_code (srv (calls w)
                  (chunk_request (take 100 (drop start row_list))))) 404); [done|].
      destruct (Z.leb_spec 400 (status_code (srv (calls w)
                  (chunk_request (take 100 (drop start row_list)))))); [|lia].
      subst o. eauto.
Qed.
End ResolverFacts.

Definition row_doc (service team : string) : json :=
  JObj [("attributes",
         JObj [("values", JObj [("service", JStr service); ("team", JStr team)])])].

(** A store with one row, for ["a"]. *)
Definition demo_rows (id : string) : list json :=
  if String.eqb id "a" then [row_doc "a" "ops"] else [].

Definition srv_store : oracle :=
  fun _ req =>
    match req with
    | RowsGet _ params => ok_json (JObj [("data", JArr (flat_map demo_rows params.*2))])
    | _ => ok_json (JObj [])
    end.

Lemma srv_store_row_store : row_store srv_store "rows" demo_rows.
Proof.
  intros hist ids _. left. split; [done|].
  eexists. split; [reflexivity|]. cbn. by rewrite row_id_params_ids.
Qed.

Lemma resolver_chunking_witness :
  (length <$> chunks 100 (filter (fun r => r ≠ "") (replicate 250 "x"))
   = [100; 100; 50]%nat)
  /\ (rows_by_id_chunked srv_store 1 "rows" ["a"; "b"] "service" "team" false w0).1
     = Ret [("a", "ops")].
Proof.
  split.
  - destruct (resolver_chunking srv_store "rows" "service" "team" false
                (replicate 250 "x") w0) as (_ & _ & _ & _ & H & _).
    apply H. vm_compute. reflexivity.
  - destruct (resolver_chunking srv_store "rows" "service" "team" false
                ["a"; "b"] w0) as (_ & _ & _ & _ & _ & H).
    destruct (H demo_rows srv_store_row_store 1%nat) as [H1 H2]; [lia|].
    rewrite H1, H2. reflexivity.
Defined.

(** A store that holds one row, for ["a"], and answers a lookup that
    asks for any other identifier with status 404, the identifiers it
    has no row for under [meta.not_found] and the rows it has under
    [data]. *)
Definition srv_partial_miss : oracle :=
  fun _ req =>
    match req with
    | RowsGet _ params =>
        let ids := params.*2 in
        let rows := JArr (flat_map demo_rows ids) in
        if forallb (fun id => String.eqb id "a") ids then ok_json (JObj [("data", rows)])
        else {| status_code := 404; text := "";
                json_body :=
                  Some (JObj [("data", rows);
                              ("meta",
                               JObj [("not_found",
                                      JArr (JStr <$> filter (fun id => id ≠ "a") ids))])]);
                request_url := "" |}
    | _ => ok_json (JObj [])
    end.

(** A source that refuses the keys. *)
Definition srv_unauthorized : oracle :=
  fun _ _ => {| status_code := 401; text := "Unauthorized"; json_body := None;
                request_url := "" |}.

(** C3 as stated fails: against such a store the result depends on how
    the identifiers fall into chunks, because a chunk answered with the
    not-found signal is dropped as a whole.  Two identifiers looked up
    together give nothing and looked up one by one give the row of
    ["a"]; 101 identifiers cut at 100 give the row of ["a"] and looked
    up in one piece give nothing.  And a lookup that fails is the last
    one: 250 identifiers then get one lookup, not three. *)
Lemma resolver_chunking_counterexample :
  (get_reference_table_rows_by_id srv_partial_miss "rows" ["a"; "b"]
     "service" "team" false w0).1 = Ret []
  /\ (rows_by_id_chunked srv_partial_miss 1 "rows" ["a"; "b"]
        "service" "team" false w0).1 = Ret [("a", "ops")]
  /\ (get_reference_table_rows_by_id srv_partial_miss "rows" (replicate 100 "b" ++ ["a"])
        "service" "team" false w0).1 = Ret [("a", "ops")]
  /\ (rows_by_id_chunked srv_partial_miss 101 "rows" (replicate 100 "b" ++ ["a"])
        "service" "team" false w0).1 = Ret []
  /\ length (calls (get_reference_table_rows_by_id srv_unauthorized "rows"
                      (replicate 250 "x") "service" "team" false w0).2) = 1%nat.
Proof. repeat split; vm_compute; reflexivity. Qed.

(** Status 404 with the not-found marker. *)
Definition srv_404_marked : oracle :=
  fun _ _ => {| status_code := 404; text := "";
                json_body := Some (JObj [("meta", JObj [("not_found", JArr [JStr "a"])])]);
                request_url := "" |}.

(** Status 404 and nothing else. *)
Definition srv_404_plain : oracle :=
  fun _ _ => {| status_code := 404; text := "Not Found";
                json_body := Some (JObj [("errors", JArr [JStr "Not Found"])]);
                request_url := "" |}.

(** Status 300 with a row in the body. *)
Definition srv_300 : oracle :=
  fun _ _ => {| status_code := 300; text := "";
                json_body := Some (JObj [("data", JArr [row_doc "a" "ops"])]);
                request_url := "" |}.

Lemma not_found_chunk_is_skipped_witness :
  (mfold (rows_chunk srv_404_marked "rows" "service" "team" false ["a"] 100)
     [] [0%nat] w0).1 = Ret []
  /\ exists e,
      (mfold (rows_chunk srv_404_plain "rows" "service" "team" false ["a"] 100)
         [] [0%nat] w0).1 = Raise e.
Proof.
  split.
  - destruct (not_found_chunk_is_skipped srv_404_marked "rows" "service" "team" false
                ["a"] [] 0%nat [] w0) as (_ & H & _).
    rewrite H; reflexivity.
  - destruct (not_found_chunk_is_skipped srv_404_plain "rows" "service" "team" false
                ["a"] [] 0%nat [] w0) as (_ & _ & H).
    destruct H as (e & He & _); [|by exists e].
    right. left. split; [reflexivity|]. cbn. discriminate.
Defined.

(** C4 as stated fails: the 404 status alone is not taken as "not
    found" and aborts the run, and a non-success status below 400 does
    not abort it. *)
Lemma not_found_counterexample :
  (get_reference_table_rows_by_id srv_404_plain "rows" ["a"] "service" "team" false w0).1
  = Raise (SystemExit "Rows endpoint not found. Verify rows URL/path.")
  /\ (get_reference_table_rows_by_id srv_300 "rows" ["a"] "service" "team" false w0).1
     = Ret [("a", "ops")].
Proof. split; reflexivity. Qed.

(** ** Writes: row creation and catalog upserts *)

(** The answers of the remote side to requests issued one after the
    other, starting from history [hist]. *)
Fixpoint replies (srv : oracle) (hist : list request) (reqs : list request)
    : list response :=
  match reqs with
  | [] => []
  | q :: reqs' => srv hist q :: replies srv (hist ++ [q]) reqs'
  end.

Lemma replies_length (srv : oracle) (hist reqs : list request) :
  length (replies srv hist reqs) = length reqs.
Proof.
  revert hist. induction reqs as [|q reqs IH]; intros hist; cbn; [done|by rewrite IH].
Qed.

(** The outcomes of create-row in the words of the specification. *)
Inductive create_outcome := Created | Conflict | Other.

Definition classify_create (resp : response) : create_outcome :=
  if (status_code resp =? 200)%Z || (status_code resp =? 201)%Z then Created
  else if (status_code resp =? 409)%Z then Conflict
  else Other.

Definition is_created (resp : response) : bool :=
  match classify_create resp with Created => true | _ => false end.

(** The entry of the failures list for a row, if it gets one. *)
Definition create_failure (rr : (string * string) * response) : option string :=
  match classify_create rr.2 with
  | Other => Some (rr.1.1 +:+ ": " +:+ pretty (status_code rr.2) +:+ " " +:+ text rr.2)
  | _ => None
  end.

Section CreateFacts.
Variable srv : oracle.
Variables (rows_url service_col team_col : string).

Definition create_request (row : string * string) : request :=
  RowsPost rows_url (create_row_payload service_col team_col row.1 row.2).

Lemma create_row_run (acc : nat * list string) (row : string * string) (w : world) :
  let resp := srv (calls w) (create_request row) in
  create_row srv rows_url service_col team_col acc row w
  = (Ret (if is_created resp then S acc.1 else acc.1,
          acc.2 ++ option_list (create_failure (row, resp))),
     {| calls := calls w ++ [create_request row]; stdout := stdout w |}).
Proof.
  destruct acc as [created failures], row as [service team]. cbv zeta.
  unfold create_row, mbind, http, mret, is_created, create_failure, classify_create,
    create_request.
  cbn [fst snd calls stdout].
  destruct (_ || _); [by rewrite app_nil_r|].
  destruct (_ =? 409)%Z; [by rewrite app_nil_r|done].
Qed.

Lemma create_rows_run (rows : pydict) (acc : nat * list string) (w : world) :
  let reqs := create_request <$> rows in
  let resps := replies srv (calls w) reqs in
  mfold (create_row srv rows_url service_col team_col) acc rows w
  = (Ret ((acc.1 + length (filter (fun r => is_created r = true) resps))%nat,
          acc.2 ++ omap create_failure (zip rows resps)),
     {| calls := calls w ++ reqs; stdout := stdout w |}).
Proof.
  cbv zeta. revert acc w.
  induction rows as [|row rows IH]; intros acc w.
  - cbn. rewrite Nat.add_0_r, !app_nil_r. by destruct w, acc.
  - cbn [mfold fmap list_fmap replies zip zip_with omap list_omap].
    unfold mbind. rewrite create_row_run, IH. cbn [fst snd calls stdout].
    rewrite filter_cons, <- !app_assoc. cbn [app].
    destruct (is_created (srv (calls w) (create_request row))) eqn:Hc;
      destruct (create_failure (row, srv (calls w) (create_request row)));
      case_decide; try done; cbn [length option_list app];
      f_equal; try done; f_equal; apply pair_equal_spec; (split; [lia|done]).
Qed.

(** C5: every row gets one create call, whatever the answers to the
    rows before it.  A row answered "created" is counted, a row
    answered with anything other than "created" or "conflict" gets an
    entry in the failures list, and a row answered "conflict" (409)
    gets neither; when every row already exists the call reports
    nothing created and no failure. *)
Theorem create_conflict_is_success (rows : pydict) (w : world) :
  let reqs := create_request <$> rows in
  let resps := replies srv (calls w) reqs in
  let r := create_reference_table_rows srv rows_url service_col team_col rows w in
  calls r.2 = calls w ++ reqs
  /\ r.1 = Ret (length (filter (fun p => is_created p = true) resps),
                omap create_failure (zip rows resps))
  /\ (forall row resp, status_code resp = 409%Z ->
      is_created resp = false /\ create_failure (row, resp) = None)
  /\ (Forall (fun resp => status_code resp = 409%Z) resps -> r.1 = Ret (O, [])).
Proof.
  cbv zeta. unfold create_reference_table_rows. rewrite create_rows_run.
  cbn [fst snd calls app Nat.add].
  split; [done|]. split; [done|].
  assert (H409 : forall row resp, status_code resp = 409%Z ->
            is_created resp = false /\ create_failure (row, resp) = None).
  { intros row resp H. unfold is_created, create_failure, classify_create.
    cbn [snd]. by rewrite H. }
  split; [exact H409|].
  intros Hall. f_equal. f_equal.
  - generalize (replies srv (calls w) (create_request <$> rows)) Hall.
    induction 1 as [|resp resps Hr _ IH]; [done|].
    rewrite filter_cons. destruct (H409 ("", "") resp Hr) as [-> _].
    case_decide; done.
  - generalize (replies srv (calls w) (create_request <$> rows)) Hall.
    clear Hall. intros resps Hall. revert rows.
    induction Hall as [|resp resps Hr _ IH]; intros [|row rows]; try done.
    cbn [zip zip_with omap list_omap].
    destruct (H409 row resp Hr) as [_ ->]. apply IH.
Qed.
End CreateFacts.

(** Every row exists already. *)
Definition srv_conflict : oracle :=
  fun _ _ => {| status_code := 409; text := "Conflict"; json_body := None;
                request_url := "" |}.

Lemma create_conflict_is_success_witness :
  (create_reference_table_rows srv_conflict "rows" "service" "team"
     [("b", "team 1"); ("c", "team 2")] w0).1 = Ret (O, []).
Proof.
  destruct (create_conflict_is_success srv_conflict "rows" "service" "team"
              [("b", "team 1"); ("c", "team 2")] w0) as (_ & _ & _ & H).
  apply H. repeat constructor.
Defined.

(** *** The upsert pass *)

Definition upsert_ok (resp : response) : bool :=
  (status_code resp =? 200)%Z || (status_code resp =? 201)%Z.

(** The line printed for a failed upsert. *)
Definition failed_line (sr : string * response) : option string :=
  if upsert_ok sr.2 then None
  else Some ("FAILED " +:+ sr.1 +:+ ": " +:+ pretty (status_code sr.2)
               +:+ " " +:+ text sr.2).

Definition add_tally (t : tally) (u s f : nat) (ms : list string) : tally :=
  {| updated := updated t + u; skipped := skipped t + s; failures := failures t + f;
     missing_team := missing_team t ++ ms |}.

Lemma add_tally_0 (t : tally) : add_tally t 0 0 0 [] = t.
Proof. destruct t. unfold add_tally. cbn. by rewrite !Nat.add_0_r, app_nil_r. Qed.

Lemma tally_eq (u1 s1 f1 u2 s2 f2 : nat) (m1 m2 : list string) :
  u1 = u2 -> s1 = s2 -> f1 = f2 -> m1 = m2 ->
  {| updated := u1; skipped := s1; failures := f1; missing_team := m1 |}
  = {| updated := u2; skipped := s2; failures := f2; missing_team := m2 |}.
Proof. by intros -> -> -> ->. Qed.

Lemma run_eq {A} (a1 a2 : A) (c1 c2 : list request) (o1 o2 : list string) :
  a1 = a2 -> c1 = c2 -> o1 = o2 ->
  (Ret a1, {| calls := c1; stdout := o1 |}) = (Ret a2, {| calls := c2; stdout := o2 |}).
Proof. by intros -> -> ->. Qed.

(** Equal runs of the upsert loop: counters, then calls, then output. *)
Ltac same_run :=
  apply run_eq;
  [apply tally_eq; cbn [updated skipped failures missing_team length];
   try lia; by rewrite <- ?app_assoc, ?app_nil_r
  | cbn [calls]; by rewrite <- ?app_assoc, ?app_nil_r
  | cbn [stdout option_list]; by rewrite <- ?app_assoc, ?app_nil_r ].

Lemma filter_split_length {A} (P : A -> Prop) `{!forall x, Decision (P x)} (l : list A) :
  (length (filter P l) + length (filter (fun x => ¬ P x) l) = length l)%nat.
Proof.
  induction l as [|x l IH]; [done|]. rewrite !filter_cons.
  destruct (decide (P x)); destruct (decide (¬ P x)); cbn [length]; try lia; tauto.
Qed.

Section UpsertFacts.
Variable srv : oracle.
Variables (base_url : string) (verbose : bool) (mapping : pydict).

Definition upsert_request (service : string) : request :=
  DefinitionsPost (base_url +:+ "/api/v2/services/definitions")
    (definition_payload service (team_of mapping service)).

Let step := upsert_step srv base_url.

Lemma upsert_step_skip (dry_run : bool) (t : tally) (s : string) (w : world) :
  team_of mapping s = "" ->
  step dry_run verbose mapping t s w = (Ret (add_tally t 0 1 0 [s]), w).
Proof.
  intros H. unfold step, upsert_step, add_tally. rewrite H. cbn.
  by rewrite !Nat.add_0_r, Nat.add_1_r.
Qed.

Lemma upsert_step_dry (t : tally) (s : string) (w : world) :
  team_of mapping s ≠ "" ->
  step true verbose mapping t s w = (Ret (add_tally t 1 0 0 []), w).
Proof.
  intros H. unfold step, upsert_step, add_tally.
  rewrite (String_eqb_eq_false _ _ H). cbn.
  by rewrite !Nat.add_0_r, Nat.add_1_r, app_nil_r.
Qed.

Lemma upsert_step_live (t : tally) (s : string) (w : world) :
  team_of mapping s ≠ "" ->
  let resp := srv (calls w) (upsert_request s) in
  step false verbose mapping t s w
  = (Ret (if upsert_ok resp then add_tally t 1 0 0 [] else add_tally t 0 0 1 []),
     {| calls := calls w ++ [upsert_request s];
        stdout := stdout w ++ option_list (failed_line (s, resp)) |}).
Proof.
  intros H. cbv zeta. unfold step, upsert_step, add_tally, failed_line.
  rewrite (String_eqb_eq_false _ _ H).
  unfold upsert_service_definition, mbind, http, mret, print, upsert_ok.
  fold (upsert_request s). cbn [fst snd calls stdout].
  destruct (_ || _); cbn [fst snd calls stdout option_list];
    by rewrite !Nat.add_0_r, !Nat.add_1_r, !app_nil_r.
Qed.

Lemma upsert_loop_dry (l : list string) (t : tally) (w : world) :
  mfold (step true verbose mapping) t l w
  = (Ret (add_tally t (length (filter (fun s => team_of mapping s ≠ "") l))
            (length (filter (fun s => team_of mapping s = "") l)) 0
            (filter (fun s => team_of mapping s = "") l)), w).
Proof.
  revert t. induction l as [|s l IH]; intros t; cbn [mfold].
  - cbn. by rewrite add_tally_0.
  - unfold mbind. rewrite !filter_cons. destruct w as [c o].
    destruct (decide (team_of mapping s = "")) as [He|Hne].
    + rewrite upsert_step_skip, IH by done.
      destruct (decide (team_of mapping s ≠ "")); [done|].
      unfold add_tally. same_run.
    + rewrite upsert_step_dry, IH by done.
      destruct (decide (team_of mapping s ≠ "")); [|done].
      unfold add_tally. same_run.
Qed.

Lemma upsert_loop_live (l : list string) (t : tally) (w : world) :
  let todo := filter (fun s => team_of mapping s ≠ "") l in
  let reqs := upsert_request <$> todo in
  let resps := replies srv (calls w) reqs in
  mfold (step false verbose mapping) t l w
  = (Ret (add_tally t (length (filter (fun r => upsert_ok r = true) resps))
            (length (filter (fun s => team_of mapping s = "") l))
            (length (filter (fun r => upsert_ok r = false) resps))
            (filter (fun s => team_of mapping s = "") l)),
     {| calls := calls w ++ reqs;
        stdout := stdout w ++ omap failed_line (zip todo resps) |}).
Proof.
  cbv zeta. revert t w. induction l as [|s l IH]; intros t w; cbn [mfold].
  - cbn. rewrite add_tally_0, !app_nil_r. by destruct w.
  - unfold mbind. rewrite !filter_cons.
    destruct (decide (team_of mapping s = "")) as [He|Hne].
    + rewrite upsert_step_skip, IH by done.
      destruct (decide (team_of mapping s ≠ "")); [done|].
      unfold add_tally. same_run.
    + rewrite upsert_step_live, IH by done.
      destruct (decide (team_of mapping s ≠ "")); [|done].
      cbn [fmap list_fmap replies zip zip_with omap list_omap calls stdout].
      rewrite !filter_cons.
      destruct (upsert_ok (srv (calls w) (upsert_request s))) eqn:Hok;
        destruct (failed_line (s, srv (calls w) (upsert_request s)));
        repeat case_decide; try done; unfold add_tally; same_run.
Qed.

Lemma upsert_failures_count (l : list string) (w : world) :
  let todo := filter (fun s => team_of mapping s ≠ "") l in
  let resps := replies srv (calls w) (upsert_request <$> todo) in
  (length (filter (fun r => upsert_ok r = true) resps)
   + length (filter (fun r => upsert_ok r = false) resps) = length todo)%nat
  /\ length (filter (fun r => upsert_ok r = false) resps)
     = length (omap failed_line (zip todo resps)).
Proof.
  cbv zeta. set (todo := filter (fun s => team_of mapping s ≠ "") l).
  assert (Hlen : length (replies srv (calls w) (upsert_request <$> todo)) = length todo)
    by (by rewrite replies_length, length_fmap).
  revert Hlen. generalize (replies srv (calls w) (upsert_request <$> todo)).
  clear. induction todo as [|s todo IH]; intros [|resp resps] Hlen; try done.
  cbn [zip zip_with omap list_omap length] in *. rewrite !filter_cons.
  destruct (IH resps) as [IH1 IH2]; [lia|].
  unfold failed_line at 1. cbn [snd].
  destruct (upsert_ok resp); repeat case_decide; try done; cbn [length]; lia.
Qed.

(** C6: in a live run every service that has a team gets exactly one
    upsert call, in sorted order and whatever the outcomes of the
    others; an outcome other than 200 or 201 adds one to the failure
    count and prints one line, and the pass always runs to its end. *)
Theorem upsert_failures_are_isolated (services : pyset) (w : world) :
  let todo := filter (fun s => team_of mapping s ≠ "") (sorted services) in
  let reqs := upsert_request <$> todo in
  let resps := replies srv (calls w) reqs in
  let r := upsert_pass srv base_url false verbose services mapping w in
  calls r.2 = calls w ++ reqs
  /\ length reqs = length todo
  /\ stdout r.2 = stdout w ++ omap failed_line (zip todo resps)
  /\ (forall s resp, is_Some (failed_line (s, resp)) <->
                     status_code resp ≠ 200%Z /\ status_code resp ≠ 201%Z)
  /\ exists t,
      r.1 = Ret t
      /\ failures t = length (omap failed_line (zip todo resps))
      /\ (updated t + failures t = length todo)%nat.
Proof.
  cbv zeta. unfold upsert_pass. fold step. rewrite upsert_loop_live.
  cbn [fst snd calls stdout].
  split; [done|]. split; [by rewrite length_fmap|]. split; [done|].
  split.
  { intros s resp. unfold failed_line, upsert_ok. cbn [snd].
    destruct (Z.eqb_spec (status_code resp) 200), (Z.eqb_spec (status_code resp) 201);
      cbn [orb]; split; try (intros [? [=]]); try (intros [? ?]; done); eauto. }
  eexists. split; [reflexivity|]. unfold add_tally. cbn [updated failures Nat.add].
  destruct (upsert_failures_count (sorted services) w) as [Hu Hf].
  split; [exact Hf|exact Hu].
Qed.

(** What the pass returns and which calls it issues. *)
Lemma upsert_pass_shape (dry_run : bool) (services : pyset) (w : world) :
  let r := upsert_pass srv base_url dry_run verbose services mapping w in
  let todo := filter (fun s => team_of mapping s ≠ "") (sorted services) in
  exists t,
    r.1 = Ret t
    /\ calls r.2 = calls w ++ (if dry_run then [] else upsert_request <$> todo)
    /\ missing_team t = filter (fun s => team_of mapping s = "") (sorted services)
    /\ skipped t = length (missing_team t)
    /\ (updated t + failures t = length todo)%nat.
Proof.
  cbv zeta. unfold upsert_pass. fold step. destruct dry_run.
  - rewrite upsert_loop_dry. eexists. cbn [fst snd]. unfold add_tally.
    repeat (split; [cbn [updated skipped failures missing_team Nat.add app];
                    first [done | by rewrite app_nil_r | lia]|]).
    cbn [updated skipped failures missing_team Nat.add]. lia.
  - destruct (upsert_failures_count (sorted services) w) as [Hu _].
    rewrite upsert_loop_live. eexists. cbn [fst snd calls]. unfold add_tally.
    repeat (split; [cbn [updated skipped failures missing_team Nat.add app];
                    first [done | lia]|]).
    cbn [updated skipped failures missing_team Nat.add]. lia.
Qed.

(** No upsert call names a service without a team. *)
Lemma no_upsert_without_team (l : list string) (s team : string) :
  team_of mapping s = "" ->
  DefinitionsPost (base_url +:+ "/api/v2/services/definitions")
    (definition_payload s team)
  ∉ upsert_request <$> filter (fun s => team_of mapping s ≠ "") l.
Proof.
  intros Hs Hin. apply list_elem_of_fmap in Hin as (s' & Heq & Hin').
  apply list_elem_of_filter in Hin' as [Ht _].
  unfold upsert_request in Heq. injection Heq as Heq _. by subst s'.
Qed.

(** C9: a service is skipped exactly when it has no team in the mapping
    left by the gap filler.  The skipped services get no upsert call,
    so none of them is counted as updated or failed, and the three
    counts add up to the number of services, in dry-run and live runs
    alike. *)
Theorem skipped_iff_no_team (dry_run : bool) (services : pyset) (w : world) :
  let r := upsert_pass srv base_url dry_run verbose services mapping w in
  exists t reqs,
    r.1 = Ret t
    /\ calls r.2 = calls w ++ reqs
    /\ missing_team t = filter (fun s => team_of mapping s = "") (sorted services)
    /\ (forall s, s ∈ missing_team t <-> s ∈ services /\ team_of mapping s = "")
    /\ skipped t = length (missing_team t)
    /\ (updated t + failures t
        = length (filter (fun s => team_of mapping s ≠ "") (sorted services)))%nat
    /\ (updated t + skipped t + failures t = length services)%nat
    /\ (forall s team, s ∈ missing_team t ->
        DefinitionsPost (base_url +:+ "/api/v2/services/definitions")
          (definition_payload s team) ∉ reqs).
Proof.
  cbv zeta.
  destruct (upsert_pass_shape dry_run services w) as (t & Ht & Hc & Hm & Hs & Hu).
  exists t. eexists. split; [exact Ht|]. split; [exact Hc|]. split; [exact Hm|].
  assert (Hmem : forall s, s ∈ missing_team t
                           <-> s ∈ services /\ team_of mapping s = "").
  { intros s. rewrite Hm, list_elem_of_filter, elem_of_sorted. tauto. }
  split; [exact Hmem|]. split; [exact Hs|]. split; [exact Hu|]. split.
  - pose proof (filter_split_length (fun s => team_of mapping s ≠ "")
                  (sorted services)) as Hsplit.
    cbv beta in Hsplit.
    assert (Hno : filter (fun s => ¬ team_of mapping s ≠ "") (sorted services)
                  = filter (fun s => team_of mapping s = "") (sorted services)).
    { apply list_filter_iff. intros s. split; [apply dec_stable|by intros ? ?]. }
    rewrite Hno, <- Hm, (Permutation_length (sorted_perm services)) in Hsplit. lia.
  - intros s team Hin. apply Hmem in Hin as [_ Hteam].
    destruct dry_run; [apply not_elem_of_nil|].
    by apply no_upsert_without_team.
Qed.
End UpsertFacts.

(** ** Run coordinator *)

Lemma print_lines_run {B} (g : B -> string) (l : list B) (w : world) :
  mfold (fun _ x => print (g x)) tt l w
  = (Ret tt, {| calls := calls w; stdout := stdout w ++ (g <$> l) |}).
Proof.
  revert w. induction l as [|x l IH]; intros w; cbn [mfold fmap list_fmap].
  - rewrite app_nil_r. by destruct w.
  - unfold mbind, print at 1. rewrite IH. cbn [calls stdout].
    by rewrite <- app_assoc.
Qed.

Lemma print_lines_unfolded {B} (g : B -> string) (l : list B) (w : world) :
  mfold (fun (_ : unit) x w1 =>
           (Ret tt, {| calls := calls w1; stdout := stdout w1 ++ [g x] |})) tt l w
  = (Ret tt, {| calls := calls w; stdout := stdout w ++ (g <$> l) |}).
Proof. exact (print_lines_run g l w). Qed.

Lemma assign_dummy_teams_keys (l : list string) (s : string) :
  s ∈ (assign_dummy_teams l).*1 -> s ∈ l.
Proof.
  rewrite assign_dummy_teams_imap.
  set (ks := sorted _). intros Hs.
  assert (Hk : s ∈ ks).
  { revert Hs. assert (Hf : forall i x, (rotation i x).1 = x) by done.
    revert Hf. generalize rotation. induction ks as [|k ks IH]; intros f Hf; cbn.
    - by intros ?%elem_of_nil.
    - rewrite !elem_of_cons, Hf. intros [->|H]; [by left|]. right.
      apply (IH (f ∘ S)); [|done]. intros i x. apply Hf. }
  unfold ks in Hk. rewrite elem_of_sorted, elem_of_py_set, list_elem_of_filter in Hk.
  tauto.
Qed.

Section GapFacts.
Variable srv : oracle.
Variable order : set_order.
Variables (rows_url service_col team_col : string).

(** The rows the gap filler makes up for [services]. *)
Definition dummy_rows (services : pyset) (mapping : pydict) : pydict :=
  assign_dummy_teams (filter (fun s => dict_mem s mapping = false) (order services)).

Lemma fill_gaps_run (dry_run verbose : bool) (services : pyset) (mapping : pydict)
    (w : world) :
  let g := fill_gaps srv order rows_url service_col team_col dry_run verbose
             services mapping w in
  g.1 = Ret (dict_update mapping (dummy_rows services mapping))
  /\ calls g.2
     = calls w ++ (if dry_run then []
                   else create_request rows_url service_col team_col
                          <$> dummy_rows services mapping).
Proof.
  cbv zeta. unfold fill_gaps. fold (dummy_rows services mapping).
  destruct (dummy_rows services mapping) as [|row rows] eqn:Hd.
  - destruct dry_run; cbn; by rewrite app_nil_r.
  - clear Hd. generalize (row :: rows). clear row rows. intros rows.
    destruct dry_run.
    + unfold mbind, when, print, mret. destruct verbose; cbn; by rewrite app_nil_r.
    + unfold mbind. unfold create_reference_table_rows. rewrite create_rows_run.
      cbn [fst snd Nat.add app]. unfold when, print, mret.
      destruct verbose; cbn [calls stdout];
        (destruct (omap create_failure _) as [|f fs];
         [done | rewrite (print_lines_unfolded (fun f => "- " +:+ f)); done]).
Qed.

(** A service that is in the resolved mapping is left as it is. *)
Lemma fill_gaps_keeps (services : pyset) (mapping : pydict) (s : string) :
  dict_mem s mapping = true ->
  (s ∉ (dummy_rows services mapping).*1)
  /\ assoc_get s (dict_update mapping (dummy_rows services mapping))
     = assoc_get s mapping.
Proof.
  intros Hmem.
  assert (Hs : s ∉ (dummy_rows services mapping).*1).
  { intros Hin. apply assign_dummy_teams_keys, list_elem_of_filter in Hin as [Hf _].
    congruence. }
  split; [exact Hs|].
  rewrite assoc_get_dict_update.
  assert (Hr : assoc_get s (reverse (dummy_rows services mapping)) = None).
  { apply assoc_get_None. by rewrite fmap_reverse, elem_of_reverse. }
  by rewrite Hr.
Qed.
End GapFacts.


(** *** What the resolver reads *)










Section BlankTeam.
Variable srv : oracle.
Variable order : set_order.
Variables (base_url rows_url service_col team_col : string).


End BlankTeam.

Definition id_order : set_order :=
  {| enum := fun l => l; enum_perm := fun l => reflexivity l |}.



(** *** Dry runs *)

(** The calls that change the mapping store or the catalog. *)
Definition is_write (r : request) : bool :=
  match r with
  | RowsPost _ _ | DefinitionsPost _ _ => true
  | _ => false
  end.

(** A computation that issues no such call. *)
Definition reads_only {A} (m : M A) : Prop :=
  forall w, exists reqs,
    calls (m w).2 = calls w ++ reqs /\ Forall (fun r => is_write r = false) reqs.

Lemma reads_mret {A} (a : A) : reads_only (mret a).
Proof. intros w. exists []. by rewrite app_nil_r. Qed.

Lemma reads_raise {A} (e : exn) : reads_only (@raise A e).
Proof. intros w. exists []. by rewrite app_nil_r. Qed.

Lemma reads_out_of_fuel {A} : reads_only (@out_of_fuel A).
Proof. intros w. exists []. by rewrite app_nil_r. Qed.

Lemma reads_lift {A} (o : result A) : reads_only (lift o).
Proof. destruct o; [apply reads_mret | apply reads_raise]. Qed.

Lemma reads_print (line : string) : reads_only (print line).
Proof. intros w. exists []. by rewrite app_nil_r. Qed.

Lemma reads_print_words (ws : list string) : reads_only (print_words ws).
Proof. apply reads_print. Qed.

Lemma reads_when (b : bool) (m : M unit) : reads_only m -> reads_only (when b m).
Proof. destruct b; [done | intros _; apply reads_mret]. Qed.

Lemma reads_http (srv : oracle) (req : request) :
  is_write req = false -> reads_only (http srv req).
Proof. intros H w. exists [req]. split; [done | by constructor]. Qed.

Lemma reads_bind {A B} (m : M A) (k : A -> M B) :
  reads_only m -> (forall a, reads_only (k a)) -> reads_only (mbind m k).
Proof.
  intros Hm Hk w. unfold mbind. destruct (Hm w) as (r1 & H1 & F1).
  destruct (m w) as [[a|e|] w1]; cbn [snd] in *; [|by exists r1..].
  destruct (Hk a w1) as (r2 & H2 & F2). exists (r1 ++ r2).
  split; [by rewrite H2, H1, app_assoc | by apply Forall_app].
Qed.

Lemma reads_mfold {A B} (f : A -> B -> M A) (a : A) (l : list B) :
  (forall a x, reads_only (f a x)) -> reads_only (mfold f a l).
Proof.
  intros Hf. revert a. induction l as [|x l IH]; intros a; cbn [mfold].
  - apply reads_mret.
  - apply reads_bind; [apply Hf | apply IH].
Qed.

Create HintDb reads.
#[export] Hint Resolve reads_mret reads_raise reads_out_of_fuel reads_lift reads_print
  reads_print_words reads_when : reads.

(** Walks through a computation built from the monad's operations. *)
Ltac reads :=
  repeat match goal with
    | |- reads_only (mbind _ _) => apply reads_bind; [|intros ?]
    | |- reads_only (http _ _) => apply reads_http; reflexivity
    | |- reads_only (mfold _ _ _) => apply reads_mfold; intros ? ?
    | |- reads_only (if ?b then _ else _) => destruct b
    | |- reads_only (match ?x with _ => _ end) => destruct x
    | |- reads_only _ => solve [auto with reads]
    end.

Section DryRun.
Variable srv : oracle.
Variable order : set_order.

Lemma reads_events_pages (base_url start_iso end_iso query : string) (limit : Z)
    (max_pages : option Z) (verbose : bool) (fuel : nat) :
  forall page cursor bc services,
    reads_only (events_pages srv base_url start_iso end_iso query limit max_pages
                  verbose fuel page cursor bc services).
Proof.
  induction fuel as [|fuel IH]; intros page cursor bc services; cbn [events_pages].
  - apply reads_out_of_fuel.
  - apply reads_bind.
    + unfold events_iteration. reads.
    + intros [s|[[c b] s]]; [apply reads_mret | apply IH].
Qed.

Lemma reads_list_tables (fuel : nat) :
  forall url params out, reads_only (list_tables_pages srv fuel url params out).
Proof.
  induction fuel as [|fuel IH]; intros url params out; cbn [list_tables_pages]; reads.
  all: apply IH.
Qed.

Lemma reads_table_id (table_name : string) (verbose : bool) (fuel : nat) :
  forall url params available,
    reads_only (table_id_pages srv fuel table_name verbose url params available).
Proof.
  induction fuel as [|fuel IH]; intros url params available; cbn [table_id_pages];
    unfold table_not_found; reads.
  all: apply IH.
Qed.

Lemma reads_rows (rows_url service_col team_col : string) (verbose : bool)
    (row_ids : list string) :
  reads_only (get_reference_table_rows_by_id srv rows_url row_ids service_col team_col
                verbose).
Proof.
  unfold get_reference_table_rows_by_id, rows_by_id_chunked. reads.
  unfold rows_chunk. reads.
Qed.

Lemma reads_fill_gaps (rows_url service_col team_col : string) (verbose : bool)
    (services : pyset) (mapping : pydict) :
  reads_only (fill_gaps srv order rows_url service_col team_col true verbose
                services mapping).
Proof. unfold fill_gaps. reads. Qed.

Lemma reads_upsert_pass (base_url : string) (verbose : bool) (services : pyset)
    (mapping : pydict) :
  reads_only (upsert_pass srv base_url true verbose services mapping).
Proof. unfold upsert_pass. reads. unfold upsert_step. reads. Qed.

Lemma reads_print_summary (s : summary) : reads_only (print_summary s).
Proof. unfold print_summary. reads. Qed.

Lemma reads_reconcile (base_url : string) (table_id : json)
    (service_col team_col : string) (verbose : bool) (services : pyset) :
  reads_only (reconcile srv order base_url table_id service_col team_col true verbose
                services).
Proof.
  unfold reconcile. reads.
  - apply reads_rows.
  - apply reads_fill_gaps.
  - apply reads_upsert_pass.
  - apply reads_print_summary.
Qed.

(** The arguments of a run with [--dry-run] set or cleared. *)
Definition with_dry_run (b : bool) (a : arguments) : arguments :=
  {| arg_table := arg_table a; arg_service_col := arg_service_col a;
     arg_team_col := arg_team_col a; arg_days := arg_days a;
     arg_query := arg_query a; arg_page_limit := arg_page_limit a;
     arg_max_pages := arg_max_pages a; arg_verbose := arg_verbose a;
     arg_list_tables := arg_list_tables a; arg_dry_run := b |}.

Lemma reads_main (fuel : nat) (env : environ) (args : arguments) :
  reads_only (main srv order fuel env (with_dry_run true args)).
Proof.
  unfold main. cbn [with_dry_run arg_table arg_service_col arg_team_col arg_days
    arg_query arg_page_limit arg_max_pages arg_verbose arg_list_tables arg_dry_run].
  destruct (window env (arg_days args)) as [start_iso end_iso].
  destruct (_ || _); [apply reads_raise|].
  destruct (arg_list_tables args).
  - apply reads_bind; [apply reads_list_tables|]. intros tables. reads.
  - apply reads_bind; [apply reads_events_pages|]. intros services.
    destruct services as [|s services]; [reads|].
    apply reads_bind.
    + destruct (REF_TABLE_ID env) as [[|c t]|];
        [apply reads_table_id | apply reads_mret | apply reads_table_id].
    + intros table_id. apply reads_bind; [apply reads_reconcile|].
      intros ?. apply reads_mret.
Qed.

(** How the summary of a dry run relates to the one of a live run. *)
Definition projects (dry live : summary) : Prop :=
  found dry = found live
  /\ skipped (counts dry) = skipped (counts live)
  /\ missing_team (counts dry) = missing_team (counts live)
  /\ updated (counts dry) = (updated (counts live) + failures (counts live))%nat
  /\ failures (counts dry) = O.

Lemma print_summary_run (s : summary) (w : world) : (print_summary s w).1 = Ret tt.
Proof.
  unfold print_summary, mbind, print, mret. cbn [fst snd].
  destruct (missing_team (counts s)) as [|m ms]; [done|].
  by rewrite (print_lines_unfolded (fun s => "- " +:+ s)).
Qed.

Lemma reconcile_dry_live (base_url : string) (table_id : json)
    (service_col team_col : string) (verbose : bool) (services : pyset) (w : world) :
  let go b := (reconcile srv order base_url table_id service_col team_col b verbose
                 services w).1 in
  match go true with
  | Ret dry => exists live, go false = Ret live /\ projects dry live
  | Raise e => go false = Raise e
  | OutOfFuel => go false = OutOfFuel
  end.
Proof.
  cbv zeta. unfold reconcile, mbind.
  destruct (get_reference_table_rows_by_id srv _ _ _ _ _ w) as [[mapping|e|] w1];
    [|done..].
  pose proof (fill_gaps_run srv order
                (get_reference_table_rows_endpoint base_url table_id)
                service_col team_col true verbose services mapping w1) as [Hd _].
  pose proof (fill_gaps_run srv order
                (get_reference_table_rows_endpoint base_url table_id)
                service_col team_col false verbose services mapping w1) as [Hl _].
  destruct (fill_gaps srv order _ _ _ true verbose services mapping w1) as [od wd].
  destruct (fill_gaps srv order _ _ _ false verbose services mapping w1) as [ol wl].
  cbn [fst] in Hd, Hl. subst od ol.
  unfold upsert_pass. rewrite upsert_loop_dry, upsert_loop_live.
  set (m' := dict_update mapping _).
  destruct (upsert_failures_count srv base_url m' (sorted services) wl) as [Hu _].
  pose proof (print_summary_run) as Hp.
  match goal with
  | |- context [print_summary ?s ?w] =>
      specialize (Hp s w); destruct (print_summary s w) as [op wp]
  end.
  cbn [fst] in Hp. subst op. cbn [fst mret].
  pose proof (print_summary_run) as Hp.
  match goal with
  | |- context [print_summary ?s ?w] =>
      specialize (Hp s w); destruct (print_summary s w) as [op wp']
  end.
  cbn [fst] in Hp. subst op. cbn [fst mret].
  eexists. split; [reflexivity|].
  unfold projects, add_tally.
  cbn [found counts updated skipped failures missing_team Nat.add].
  repeat split; done.
Qed.

(** A dry run and a live run end alike: when the dry run prints a
    summary the live run prints one that it projects, and otherwise the
    two end in the same way. *)
Definition agrees (d l : outcome (option summary)) : Prop :=
  match d with
  | Ret (Some dry) => exists live, l = Ret (Some live) /\ projects dry live
  | Ret None => l = Ret None
  | Raise e => l = Raise e
  | OutOfFuel => l = OutOfFuel
  end.

Lemma agrees_bind {A} (m : M A) (k1 k2 : A -> M (option summary)) (w : world) :
  (forall a w1, agrees (k1 a w1).1 (k2 a w1).1) ->
  agrees (mbind m k1 w).1 (mbind m k2 w).1.
Proof.
  intros Hk. unfold mbind. destruct (m w) as [[a|e|] w1]; [apply Hk|done..].
Qed.

Lemma agrees_reconcile (base_url : string) (table_id : json)
    (service_col team_col : string) (verbose : bool) (services : pyset) (w : world) :
  agrees
    (mbind (reconcile srv order base_url table_id service_col team_col true verbose
              services) (fun s => mret (Some s)) w).1
    (mbind (reconcile srv order base_url table_id service_col team_col false verbose
              services) (fun s => mret (Some s)) w).1.
Proof.
  unfold agrees, mbind.
  pose proof (reconcile_dry_live base_url table_id service_col team_col verbose
                services w) as H. cbv beta zeta in H. revert H.
  destruct (reconcile srv order base_url table_id service_col team_col true verbose
              services w) as [[dry|e|] wd];
    destruct (reconcile srv order base_url table_id service_col team_col false verbose
                services w) as [ol wl]; cbn [fst snd mret]; intros H.
  - destruct H as (live & -> & Hp). cbn. eauto.
  - by subst ol.
  - by subst ol.
Qed.

(** C8, amended: a dry run issues no create-row and no upsert call.
    Started from the same state as a live run, it ends the same way,
    and when it prints a summary so does the live run: the two agree on
    the services found, on the skipped count and on the services
    without a team; the dry run counts as updated every service that
    the live run counts as updated or failed, and counts no failure. *)
Theorem dry_run_projection (fuel : nat) (env : environ) (args : arguments) (w : world) :
  let dry_run := main srv order fuel env (with_dry_run true args) w in
  let live_run := main srv order fuel env (with_dry_run false args) w in
  (exists reqs, calls dry_run.2 = calls w ++ reqs
                /\ Forall (fun r => is_write r = false) reqs)
  /\ agrees dry_run.1 live_run.1.
Proof.
  cbv zeta. split; [apply reads_main|].
  unfold main. cbn [with_dry_run arg_table arg_service_col arg_team_col arg_days
    arg_query arg_page_limit arg_max_pages arg_verbose arg_list_tables arg_dry_run].
  destruct (window env (arg_days args)) as [start_iso end_iso].
  destruct (_ || _); [done|].
  destruct (arg_list_tables args).
  - apply agrees_bind. intros [|t ts] w1; [done|].
    unfold mbind, print, mret.
    by rewrite (print_lines_unfolded
                  (fun t => "- " +:+ py_str (t_id t) +:+ "  name="
                              +:+ py_str (py_or (t_name t) (JStr "(no name)")))).
  - apply agrees_bind. intros [|s services] w1; [done|].
    apply agrees_bind. intros table_id w2. apply agrees_reconcile.
Qed.
End DryRun.

(** A run in which the one upsert fails: one event names the service
    ["web"], the store maps it to ["ops"], the catalog answers 500. *)
Definition srv_upsert_fails : oracle :=
  fun _ req =>
    match req with
    | EventsSearch _ _ => ok_json (JObj [("data", JArr [event_both])])
    | RowsGet _ _ => ok_json (JObj [("data", JArr [row_doc "web" "ops"])])
    | DefinitionsPost _ _ =>
        {| status_code := 500; text := "Internal Server Error"; json_body := None;
           request_url := "" |}
    | _ => ok_json (JObj [])
    end.

Definition env0 : environ :=
  {| DD_API_KEY := Some "api"; DD_APP_KEY := Some "app"; DD_SITE := None;
     REF_TABLE_NAME := None; REF_TABLE_ID := Some "tbl";
     REF_TABLE_COL_1 := None; REF_TABLE_COL_2 := None;
     window := fun _ => ("2026-01-01T00:00:00+00:00", "2026-01-08T00:00:00+00:00") |}.

Definition args0 : arguments :=
  {| arg_table := None; arg_service_col := None; arg_team_col := None;
     arg_days := 7; arg_query := "*"; arg_page_limit := 100; arg_max_pages := None;
     arg_verbose := false; arg_list_tables := false; arg_dry_run := false |}.

Definition counted (u s f : nat) : option summary :=
  Some {| found := 1;
          counts := {| updated := u; skipped := s; failures := f; missing_team := [] |} |}.

(** C8 as stated fails: where a live run has a failed upsert, the dry
    run from the same state reports it as updated. *)
Lemma dry_run_counterexample :
  (main srv_upsert_fails id_order 5 env0 (with_dry_run true args0) w0).1
  = Ret (counted 1 0 0)
  /\ (main srv_upsert_fails id_order 5 env0 (with_dry_run false args0) w0).1
     = Ret (counted 0 0 1).
Proof. split; vm_compute; reflexivity. Qed.

Lemma dry_run_projection_witness :
  agrees (main srv_upsert_fails id_order 5 env0 (with_dry_run true args0) w0).1
    (main srv_upsert_fails id_order 5 env0 (with_dry_run false args0) w0).1.
Proof. exact (proj2 (dry_run_projection srv_upsert_fails id_order 5 env0 args0 w0)). Defined.

Lemma upsert_failures_are_isolated_witness :
  exists t,
    (upsert_pass srv_upsert_fails "https://api.datadoghq.com" false false ["web"; "db"]
       [("web", "ops"); ("db", "data")] w0).1 = Ret t
    /\ failures t = 2%nat.
Proof.
  destruct (upsert_failures_are_isolated srv_upsert_fails "https://api.datadoghq.com"
              false [("web", "ops"); ("db", "data")] ["web"; "db"] w0)
    as (_ & _ & _ & _ & t & Ht & Hf & _).
  exists t. split; [exact Ht|]. rewrite Hf. reflexivity.
Defined.

Lemma skipped_iff_no_team_witness :
  exists t,
    (upsert_pass srv_upsert_fails "https://api.datadoghq.com" true false ["web"; "db"]
       [("web", "ops"); ("db", " ")] w0).1 = Ret t
    /\ missing_team t = ["db"] /\ skipped t = 1%nat.
Proof.
  destruct (skipped_iff_no_team srv_upsert_fails "https://api.datadoghq.com"
              false [("web", "ops"); ("db", " ")] true ["web"; "db"] w0)
    as (t & reqs & Ht & _ & Hm & _ & Hs & _).
  exists t. split; [exact Ht|]. rewrite Hs, Hm. split; reflexivity.
Defined.

(** * Further properties *)

(** ** Base URL *)

Fixpoint str_forall (p : ascii -> bool) (s : string) : bool :=
  match s with
  | EmptyString => true
  | String c s' => p c && str_forall p s'
  end.

Fixpoint str_last (s : string) : option ascii :=
  match s with
  | EmptyString => None
  | String c EmptyString => Some c
  | String _ s' => str_last s'
  end.

Lemma rstrip_with_empty (p : ascii -> bool) (s : string) :
  rstrip_with p s = "" -> str_forall p s = true.
Proof.
  induction s as [|c s IH]; [done|]. cbn [rstrip_with str_forall].
  destruct (rstrip_with p s) eqn:Hr; [|done].
  destruct (p c); [intros _; by rewrite IH | done].
Qed.

Lemma rstrip_with_split (p : ascii -> bool) (s : string) :
  exists t, s = rstrip_with p s +:+ t /\ str_forall p t = true.
Proof.
  induction s as [|c s IH]; [by exists ""|].
  destruct IH as (t & Hs & Ht). cbn [rstrip_with].
  destruct (rstrip_with p s) as [|d r] eqn:Hr.
  - destruct (p c) eqn:Hc.
    + exists (String c s). split; [done|]. cbn. rewrite Hc. by apply rstrip_with_empty.
    + exists t. split; [|done]. by rewrite Hs at 1.
  - exists t. split; [|done]. by rewrite Hs at 1.
Qed.

Lemma rstrip_with_last (p : ascii -> bool) (s : string) (c : ascii) :
  str_last (rstrip_with p s) = Some c -> p c = false.
Proof.
  induction s as [|d s IH]; [done|]. cbn [rstrip_with].
  destruct (rstrip_with p s) as [|e r] eqn:Hr.
  - destruct (p d) eqn:Hd; [done|]. cbn. by intros [= <-].
  - intros H. apply IH. exact H.
Qed.

(** X1: a site given with its scheme loses its trailing slashes and
    nothing else; a bare host gets ["https://api."] in front, or
    ["https://"] when it already starts with ["api."], and keeps any
    trailing slash. *)
Theorem build_api_base_shape (site : option string) :
  let s := strip (default "" site) in
  let base := build_api_base site in
  if String.prefix "http://" s || String.prefix "https://" s then
    (exists t, s = base +:+ t /\ str_forall (fun c => Ascii.eqb c "/") t = true)
    /\ str_last base ≠ Some "/"%char
  else if String.prefix "api." s then base = "https://" +:+ s
  else base = "https://api." +:+ s.
Proof.
  cbv zeta. unfold build_api_base.
  destruct (String.prefix "http://" _ || String.prefix "https://" _).
  - split; [apply rstrip_with_split|].
    intros H. by apply rstrip_with_last in H.
  - by destruct (String.prefix "api." _).
Qed.

(** ** Extraction over a stream of records *)

Lemma elem_of_set_add (x y : string) (s : pyset) : x ∈ set_add y s <-> x = y \/ x ∈ s.
Proof.
  unfold set_add. case_decide as Hin.
  - split; [tauto|]. by intros [->|?].
  - rewrite elem_of_app, list_elem_of_singleton. tauto.
Qed.

Lemma NoDup_set_add (y : string) (s : pyset) : NoDup s -> NoDup (set_add y s).
Proof.
  intros Hnd. unfold set_add. case_decide; [done|].
  apply NoDup_app. repeat split; [done| |apply NoDup_singleton].
  intros z Hz Hz'. apply list_elem_of_singleton in Hz'. by subst.
Qed.

(** What a record does to the set depends on the record alone: it either
    raises, or adds the members of a list of names. *)
Definition adds_names {B} (f : pyset -> B -> result pyset) (x : B) : Prop :=
  (exists names : list string, forall s, exists s',
      f s x = Ok s' /\ (NoDup s -> NoDup s')
      /\ forall y, y ∈ s' <-> y ∈ s \/ y ∈ names)
  \/ (exists e, forall s, f s x = Err e).

Lemma ofold_adds_names {B} (f : pyset -> B -> result pyset) (l : list B) :
  (forall x, adds_names f x) -> adds_names (ofold f) l.
Proof.
  intros Hf. induction l as [|x l IH].
  - left. exists []. intros s. exists s. cbn. split; [done|]. split; [done|].
    intros y. rewrite elem_of_nil. tauto.
  - destruct (Hf x) as [(n1 & H1)|(e & He)].
    + destruct IH as [(n2 & H2)|(e & He)].
      * left. exists (n1 ++ n2). intros s. destruct (H1 s) as (s1 & E1 & N1 & M1).
        destruct (H2 s1) as (s2 & E2 & N2 & M2). exists s2. cbn [ofold].
        rewrite E1. cbn [obind]. split; [done|]. split; [auto|].
        intros y. rewrite M2, M1, elem_of_app. tauto.
      * right. exists e. intros s. destruct (H1 s) as (s1 & E1 & _).
        cbn [ofold]. rewrite E1. apply He.
    + right. exists e. intros s. cbn [ofold]. by rewrite He.
Qed.

Lemma tag_adds_names (tag : json) :
  adds_names (fun services tag =>
                let? hit := py_startswith tag "service:" in
                if hit then
                  let? parts := py_split1 tag "service:" in
                  let? name := py_index parts 1 in
                  Ok (set_add name services)
                else Ok services) tag.
Proof.
  unfold adds_names.
  destruct (py_startswith tag "service:") as [[]|e]; cbn [obind].
  - destruct (py_split1 tag "service:") as [parts|e]; cbn [obind].
    + destruct (py_index parts 1) as [name|e]; cbn [obind].
      * left. exists [name]. intros s. eexists. split; [done|].
        split; [apply NoDup_set_add|].
        intros y. rewrite elem_of_set_add, list_elem_of_singleton. tauto.
      * right. by exists e.
    + right. by exists e.
  - left. exists []. intros s. exists s. split; [done|]. split; [done|].
    intros y. rewrite elem_of_nil. tauto.
  - right. by exists e.
Qed.

Lemma extract_event_adds_names (event : json) : adds_names extract_event event.
Proof.
  unfold adds_names.
  destruct (py_get event "attributes" (JObj [])) as [a|e] eqn:Ea.
  2:{ right. exists e. intros s. unfold extract_event. by rewrite Ea. }
  destruct (py_get (py_or a (JObj [])) "attributes" (JObj [])) as [n|e] eqn:En.
  2:{ right. exists e. intros s. unfold extract_event. rewrite Ea. cbn [obind].
      by rewrite En. }
  destruct (py_get (py_or n (JObj [])) "service" JNull) as [svc|e] eqn:Es.
  2:{ right. exists e. intros s. unfold extract_event. rewrite Ea. cbn [obind].
      rewrite En. cbn [obind]. by rewrite Es. }
  assert (Hhead : forall s,
             extract_event s event
             = if truthy svc then Ok (set_add (py_str svc) s)
               else
                 let? t := py_get (py_or a (JObj [])) "tags" (JArr []) in
                 let? tags := py_iter (py_or t (JArr [])) in
                 ofold (fun services tag =>
                          let? hit := py_startswith tag "service:" in
                          if hit then
                            let? parts := py_split1 tag "service:" in
                            let? name := py_index parts 1 in
                            Ok (set_add name services)
                          else Ok services) s tags).
  { intros s. unfold extract_event. rewrite Ea. cbn [obind]. rewrite En. cbn [obind].
    by rewrite Es. }
  destruct (truthy svc).
  - left. exists [py_str svc]. intros s. eexists. split; [apply Hhead|].
    split; [apply NoDup_set_add|].
    intros y. rewrite elem_of_set_add, list_elem_of_singleton. tauto.
  - destruct (py_get (py_or a (JObj [])) "tags" (JArr [])) as [t|e] eqn:Et.
    2:{ right. exists e. intros s. by rewrite Hhead. }
    destruct (py_iter (py_or t (JArr []))) as [tags|e] eqn:Ei.
    2:{ right. exists e. intros s. rewrite Hhead. cbn [obind]. by rewrite Ei. }
    destruct (ofold_adds_names _ tags tag_adds_names) as [(names & H)|(e & He)].
    + left. exists names. intros s. rewrite Hhead. cbn [obind]. rewrite Ei. apply H.
    + right. exists e. intros s. rewrite Hhead. cbn [obind]. rewrite Ei. apply He.
Qed.

Lemma adds_names_equiv {B} (f : pyset -> B -> result pyset) (x : B) (a b a' : pyset) :
  adds_names f x -> (forall y, y ∈ a <-> y ∈ b) -> f a x = Ok a' ->
  exists b', f b x = Ok b' /\ forall y, y ∈ a' <-> y ∈ b'.
Proof.
  intros [(names & H)|(e & He)] Hab Ha; [|by rewrite He in Ha].
  destruct (H a) as (a1 & Ea & _ & Ma), (H b) as (b1 & Eb & _ & Mb).
  rewrite Ea in Ha. injection Ha as <-. exists b1. split; [done|].
  intros y. rewrite Ma, Mb, Hab. tauto.
Qed.

Lemma extract_fold_perm (l1 l2 : list json) :
  l1 ≡ₚ l2 ->
  forall a b a', (forall y, y ∈ a <-> y ∈ b) ->
    ofold extract_event a l1 = Ok a' ->
    exists b', ofold extract_event b l2 = Ok b' /\ forall y, y ∈ a' <-> y ∈ b'.
Proof.
  induction 1 as [|x l1 l2 _ IH|x1 x2 l|l1 l2 l3 _ IH1 _ IH2]; intros a b a' Hab Ha.
  - cbn in *. injection Ha as <-. by exists b.
  - cbn [ofold] in *. destruct (extract_event a x) as [a1|] eqn:E1; [|done].
    destruct (adds_names_equiv _ x a b a1 (extract_event_adds_names x) Hab E1)
      as (b1 & -> & H1). cbn [obind] in *. by apply (IH a1).
  - cbn [ofold] in *.
    destruct (extract_event a x2) as [a1|] eqn:E2; [|done]. cbn [obind] in Ha.
    destruct (extract_event a1 x1) as [a2|] eqn:E1; [|done]. cbn [obind] in Ha.
    destruct (extract_event_adds_names x1) as [(n1 & H1)|(e & He)];
      [|by rewrite He in E1].
    destruct (extract_event_adds_names x2) as [(n2 & H2)|(e & He)];
      [|by rewrite He in E2].
    destruct (H2 a) as (? & Ea1 & _ & Ma1). rewrite E2 in Ea1. injection Ea1 as <-.
    destruct (H1 a1) as (? & Ea2 & _ & Ma2). rewrite E1 in Ea2. injection Ea2 as <-.
    destruct (H1 b) as (b1 & -> & _ & Mb1). cbn [obind].
    destruct (H2 b1) as (b2 & -> & _ & Mb2). cbn [obind].
    assert (Heq : forall y, y ∈ a2 <-> y ∈ b2).
    { intros y. rewrite Ma2, Ma1, Mb2, Mb1, Hab. tauto. }
    clear -Heq Ha. revert a2 b2 Heq Ha.
    induction l as [|x l IH]; intros a2 b2 Heq Ha.
    + cbn in *. injection Ha as <-. by exists b2.
    + cbn [ofold] in *. destruct (extract_event a2 x) as [a3|] eqn:E3; [|done].
      destruct (adds_names_equiv _ x a2 b2 a3 (extract_event_adds_names x) Heq E3)
        as (b3 & -> & H3). cbn [obind] in *. by apply (IH a3).
  - destruct (IH1 a b a' Hab Ha) as (b1 & Hb1 & H1).
    destruct (IH2 b b b1 (fun y => iff_refl _) Hb1) as (b2 & Hb2 & H2).
    exists b2. split; [done|]. intros y. by rewrite H1, H2.
Qed.

(** X2: the set extracted from a stream of records does not depend on
    the order of the records: if extraction succeeds on one arrangement
    it succeeds on every other and yields the same members, and a set
    without duplicates stays without duplicates. *)
Theorem extraction_order_independent (services s1 : pyset) (l1 l2 : list json) :
  l1 ≡ₚ l2 ->
  ofold extract_event services l1 = Ok s1 ->
  (NoDup services -> NoDup s1)
  /\ exists s2, ofold extract_event services l2 = Ok s2 /\ forall y, y ∈ s1 <-> y ∈ s2.
Proof.
  intros Hp H1. split.
  - destruct (ofold_adds_names extract_event l1 extract_event_adds_names)
      as [(names & H)|(e & He)]; [|by rewrite He in H1].
    destruct (H services) as (s' & E & N & _). rewrite H1 in E. by injection E as <-.
  - by apply (extract_fold_perm l1 l2 Hp services services s1).
Qed.

Lemma extraction_order_independent_witness :
  exists s2, ofold extract_event [] [event_both; event_tags_only] = Ok s2
             /\ forall y, y ∈ ["api"; "db"; "web"] <-> y ∈ s2.
Proof.
  apply (extraction_order_independent [] ["api"; "db"; "web"]
           [event_tags_only; event_both] [event_both; event_tags_only]).
  - apply Permutation_swap.
  - reflexivity.
Defined.

(** ** The fetcher's result and failures *)

Lemma extract_fold_NoDup (services s1 : pyset) (events : list json) :
  NoDup services -> ofold extract_event services events = Ok s1 -> NoDup s1.
Proof.
  intros Hnd H1.
  destruct (ofold_adds_names extract_event events extract_event_adds_names)
    as [(names & H)|(e & He)]; [|by rewrite He in H1].
  destruct (H services) as (s' & E & N & _). rewrite H1 in E. injection E as <-. auto.
Qed.

Section FetcherFacts.
Variable srv : oracle.
Variables (base_url start_iso end_iso query : string) (limit : Z).
Variables (max_pages : option Z) (verbose : bool).

Let iteration := events_iteration srv base_url start_iso end_iso query limit
                   max_pages verbose.
Let pages := events_pages srv base_url start_iso end_iso query limit
               max_pages verbose.

(** The services a pass hands on. *)
Definition passed_on (r : pyset + json * option json * pyset) : pyset :=
  match r with
  | inl s => s
  | inr (_, _, s) => s
  end.

Lemma events_iteration_NoDup (page : Z) (cursor : json) (bc : option json)
    (services : pyset) (w : world) (out : pyset + json * option json * pyset) :
  NoDup services ->
  (iteration page cursor bc services w).1 = Ret out -> NoDup (passed_on out).
Proof.
  intros Hnd. unfold iteration, events_iteration.
  destruct (match max_pages with Some mp => (mp <? page)%Z | None => false end).
  { unfold mbind, when, print, mret. destruct verbose; cbn; by intros [= <-]. }
  unfold mbind, when, print_words, print, http, lift, raise, mret, resp_json,
    raise_for_status.
  set (req := EventsSearch _ _).
  destruct verbose; cbn [calls stdout];
    (destruct (status_code (srv (calls w) req) =? 401)%Z; cbn [fst snd]; [done|]);
    (destruct ((400 <=? status_code (srv (calls w) req))
               && (status_code (srv (calls w) req) <? 600))%Z; cbn [fst snd]; [done|]);
    (destruct (json_body (srv (calls w) req)) as [data|]; cbn [fst snd]; [|done]);
    (destruct (let? d := py_get data "data" (JArr []) in
               let? events := py_iter (py_or d (JArr [])) in
               ofold extract_event services events) as [s1|] eqn:Hx;
     cbn [fst snd]; [|done]);
    (assert (NoDup s1) as Hs1
        by (destruct (py_get data "data" (JArr [])) as [d|]; [|done];
            cbn [obind] in Hx;
            destruct (py_iter (py_or d (JArr []))) as [events|]; [|done];
            cbn [obind] in Hx; by eapply extract_fold_NoDup));
    (destruct (next_cursor data) as [c|]; cbn [fst snd]; [|done]);
    (destruct (truthy c); cbn [fst snd]); by intros [= <-].
Qed.

Lemma events_pages_NoDup (fuel : nat) :
  forall page cursor bc services w s,
    NoDup services -> (pages fuel page cursor bc services w).1 = Ret s -> NoDup s.
Proof.
  induction fuel as [|fuel IH]; intros page cursor bc services w s Hnd; [done|].
  unfold pages. cbn [events_pages]. fold pages iteration. unfold mbind.
  pose proof (events_iteration_NoDup (page + 1) cursor bc services w) as Hit.
  destruct (iteration (page + 1)%Z cursor bc services w) as [[out| |] w1]; [|done..].
  specialize (Hit out Hnd eq_refl).
  destruct out as [s'|[[c bc'] s']]; cbn [passed_on] in Hit.
  - cbn. by intros [= <-].
  - by apply IH.
Qed.

(** X3: the services a fetch returns are a set: no identifier occurs
    twice, whatever the source sends on however many pages. *)
Theorem discovered_services_NoDup (fuel : nat) (w : world) (services : pyset) :
  (list_services_from_events srv base_url start_iso end_iso query limit max_pages
     verbose fuel w).1 = Ret services ->
  NoDup services.
Proof. apply events_pages_NoDup. constructor. Qed.

(** X4: with [max_pages] zero or negative the fetch issues no request at
    all and returns the empty set. *)
Theorem no_pages_no_request (mp : Z) (fuel : nat) (w : world) :
  max_pages = Some mp -> (mp <= 0)%Z ->
  let r := list_services_from_events srv base_url start_iso end_iso query limit
             max_pages verbose (S fuel) w in
  r.1 = Ret [] /\ calls r.2 = calls w.
Proof.
  intros Hmp Hle. cbv zeta. unfold list_services_from_events. cbn [events_pages].
  unfold mbind. fold iteration.
  assert (Hom : over_max max_pages (0 + 1) = true).
  { unfold over_max. rewrite Hmp. apply Z.ltb_lt. lia. }
  destruct (events_iteration_stop srv base_url start_iso end_iso query limit max_pages
              verbose (0 + 1) JNull None [] w Hom) as [H1 H2].
  fold iteration in H1, H2.
  destruct (iteration (0 + 1)%Z JNull None [] w) as [o w1]. cbn [fst snd] in *.
  by subst o.
Qed.

(** X5: a page answered with status 401 ends the fetch with [SystemExit],
    and a page answered with any other status from 400 to 599 ends it
    with [HTTPError]; in both cases no further page is requested and the
    services of the earlier pages are not returned. *)
Theorem fetch_fails_on_error_status (fuel : nat) (page : Z) (cursor : json)
    (bc : option json) (services : pyset) (w : world) :
  over_max max_pages (page + 1) = false ->
  let req := page_request base_url start_iso end_iso query limit cursor in
  let status := status_code (srv (calls w) req) in
  let r := pages (S fuel) page cursor bc services w in
  (400 <= status < 600)%Z ->
  calls r.2 = calls w ++ [req]
  /\ r.1 = if (status =? 401)%Z
           then Raise (SystemExit
                  "Unauthorized (401) for events/search. Check API+APP keys permissions.")
           else Raise (HTTPError status).
Proof.
  intros Hom. cbv zeta. intros Hst.
  unfold pages. cbn [events_pages]. unfold mbind, events_iteration.
  unfold over_max in Hom. rewrite Hom. unfold page_request in *.
  assert (Hbc : (if truthy cursor then Some cursor
                 else match bc with Some _ => None | None => bc end)
                = (if truthy cursor then Some cursor else None)).
  { destruct (truthy cursor), bc; done. }
  rewrite Hbc. clear Hbc. set (req := EventsSearch _ _) in *.
  unfold mbind, when, print_words, print, http, lift, raise, mret, raise_for_status.
  assert (Hrange : ((400 <=? status_code (srv (calls w) req))
                    && (status_code (srv (calls w) req) <? 600))%Z = true).
  { apply andb_true_iff. split; [apply Z.leb_le | apply Z.ltb_lt]; lia. }
  destruct verbose; cbn [calls stdout];
    (destruct (status_code (srv (calls w) req) =? 401)%Z; cbn [fst snd calls];
     [done|]); rewrite Hrange; done.
Qed.
End FetcherFacts.

Lemma discovered_services_NoDup_witness : NoDup ["web"].
Proof.
  apply (discovered_services_NoDup srv_two_pages "https://api.datadoghq.com" "t0" "t1"
           "*" 100 None false 3 w0 ["web"]).
  reflexivity.
Defined.

Lemma no_pages_no_request_witness :
  (list_services_from_events srv_two_pages "https://api.datadoghq.com" "t0" "t1" "*"
     100 (Some 0%Z) false 1 w0).1 = Ret [].
Proof.
  assert (H : (0 <= 0)%Z) by lia.
  exact (proj1 (no_pages_no_request srv_two_pages "https://api.datadoghq.com" "t0" "t1"
                  "*" 100 (Some 0%Z) false 0%Z 0 w0 eq_refl H)).
Defined.

Lemma fetch_fails_on_error_status_witness :
  (events_pages srv_unauthorized "https://api.datadoghq.com" "t0" "t1" "*" 100 None
     false 1 0 JNull None [] w0).1
  = Raise (SystemExit
             "Unauthorized (401) for events/search. Check API+APP keys permissions.").
Proof.
  assert (H : (400 <= 401 < 600)%Z) by lia.
  exact (proj2 (fetch_fails_on_error_status srv_unauthorized "https://api.datadoghq.com"
                  "t0" "t1" "*" 100 None false 0 0 JNull None [] w0 eq_refl H)).
Defined.

(** ** The resolver's lookups and mapping *)

Lemma range_from_length (k fuel start stop : nat) :
  (0 < k)%nat -> (stop - start <= fuel)%nat ->
  length (range_from fuel start stop k) = ((stop - start + k - 1) / k)%nat.
Proof.
  intros Hk. revert start. induction fuel as [|fuel IH]; intros start Hf; cbn [range_from].
  - replace (stop - start + k - 1)%nat with (k - 1)%nat by lia.
    rewrite Nat.div_small by lia. done.
  - destruct (Nat.ltb_spec start stop) as [Hlt|Hge].
    + cbn [length]. rewrite IH by lia.
      replace (stop - start + k - 1)%nat with ((stop - start - 1) + 1 * k)%nat by lia.
      rewrite Nat.div_add by lia.
      destruct (Nat.le_gt_cases k (stop - start)) as [Hle|Hgt].
      * replace (stop - (start + k) + k - 1)%nat with (stop - start - 1)%nat by lia. lia.
      * replace (stop - (start + k) + k - 1)%nat with (k - 1)%nat by lia.
        rewrite !Nat.div_small by lia. done.
    + replace (stop - start + k - 1)%nat with (k - 1)%nat by lia.
      rewrite Nat.div_small by lia. done.
Qed.

Lemma elem_of_keys_dict_set (x k v : string) (d : pydict) :
  x ∈ (dict_set k v d).*1 <-> x = k \/ x ∈ d.*1.
Proof.
  induction d as [|[k' v'] d IH]; cbn.
  - rewrite list_elem_of_singleton, elem_of_nil. tauto.
  - destruct (String.eqb_spec k k') as [->|Hne]; cbn.
    + rewrite !elem_of_cons. tauto.
    + rewrite !elem_of_cons, IH. tauto.
Qed.

Lemma NoDup_keys_dict_set (k v : string) (d : pydict) :
  NoDup d.*1 -> NoDup (dict_set k v d).*1.
Proof.
  induction d as [|[k' v'] d IH]; cbn; intros Hnd.
  - apply NoDup_singleton.
  - apply NoDup_cons in Hnd as [Hk Hnd].
    destruct (String.eqb_spec k k') as [->|Hne]; cbn.
    + by apply NoDup_cons.
    + apply NoDup_cons. split; [|by apply IH].
      rewrite elem_of_keys_dict_set. intros [?|?]; [by subst | done].
Qed.

(** What the resolver keeps true of its mapping: distinct keys, none of
    them empty, and no key ever dropped. *)
Definition grows_well (m m' : pydict) : Prop :=
  (NoDup m.*1 -> NoDup m'.*1)
  /\ ("" ∉ m.*1 -> "" ∉ m'.*1)
  /\ (forall k, k ∈ m.*1 -> k ∈ m'.*1).

Lemma grows_well_refl (m : pydict) : grows_well m m.
Proof. by repeat split. Qed.

Lemma grows_well_trans (m1 m2 m3 : pydict) :
  grows_well m1 m2 -> grows_well m2 m3 -> grows_well m1 m3.
Proof. intros (A1 & B1 & C1) (A2 & B2 & C2). repeat split; auto. Qed.

Lemma rows_item_grows (service_col team_col : string) (m m' : pydict) (item : json) :
  rows_item service_col team_col m item = Ok m' -> grows_well m m'.
Proof.
  unfold rows_item.
  destruct (_extract_row_values item) as [values|]; [|done]. cbn [obind].
  destruct (py_get values service_col JNull) as [sv|]; [|done]. cbn [obind].
  destruct (py_strip (py_or sv (JStr ""))) as [service|]; [|done]. cbn [obind].
  destruct (py_get values team_col JNull) as [tv|]; [|done]. cbn [obind].
  destruct (py_strip (py_or tv (JStr ""))) as [team|]; [|done]. cbn [obind].
  destruct (String.eqb_spec service "") as [->|Hne]; intros [= <-].
  - apply grows_well_refl.
  - split; [apply NoDup_keys_dict_set|]. split.
    + intros Hm. rewrite elem_of_keys_dict_set. intros [?|?]; [by subst|done].
    + intros k Hk. rewrite elem_of_keys_dict_set. by right.
Qed.

Lemma ofold_grows {B} (f : pydict -> B -> result pydict) (l : list B) :
  (forall m m' x, f m x = Ok m' -> grows_well m m') ->
  forall m m', ofold f m l = Ok m' -> grows_well m m'.
Proof.
  intros Hf. induction l as [|x l IH]; intros m m'; cbn [ofold].
  - intros [= <-]. apply grows_well_refl.
  - destruct (f m x) as [m1|] eqn:E; [|done]. cbn [obind]. intros H.
    eapply grows_well_trans; [by eapply Hf | by apply IH].
Qed.

Lemma rows_response_grows (service_col team_col : string) (m m' : pydict)
    (resp : response) :
  rows_response service_col team_col m resp = Ok m' -> grows_well m m'.
Proof.
  unfold rows_response, rows_payload.
  destruct (status_code resp =? 401)%Z; [done|].
  destruct (status_code resp =? 404)%Z.
  { destruct (has_not_found_marker _) as [[]|]; cbn [obind]; [|done..].
    intros [= <-]. apply grows_well_refl. }
  destruct (400 <=? status_code resp)%Z; [done|].
  destruct (resp_json resp) as [payload|]; [|done]. cbn [obind].
  destruct (py_get payload "data" (JArr [])) as [d|]; [|done]. cbn [obind].
  destruct (py_iter (py_or d (JArr []))) as [items|]; [|done]. cbn [obind].
  apply ofold_grows. intros ? ? ?. apply rows_item_grows.
Qed.

Section ResolverMore.
Variable srv : oracle.
Variables (rows_url service_col team_col : string) (verbose : bool).

Lemma rows_loop_grows (row_list : list string) (k : nat) (starts : list nat) :
  forall m m' w,
    (mfold (rows_chunk srv rows_url service_col team_col verbose row_list k)
       m starts w).1 = Ret m' ->
    grows_well m m'.
Proof.
  induction starts as [|s starts IH]; intros m m' w; cbn [mfold].
  - cbn. intros [= <-]. apply grows_well_refl.
  - unfold mbind.
    destruct (rows_chunk_run srv rows_url service_col team_col verbose row_list k m s w)
      as [H1 _].
    destruct (rows_chunk srv rows_url service_col team_col verbose row_list k m s w)
      as [o w1]. cbn [fst] in H1.
    destruct (rows_response service_col team_col m _) as [m1|] eqn:E;
      cbn [to_outcome] in H1; subst o; [|done].
    intros H. eapply grows_well_trans; [by eapply rows_response_grows | by eapply IH].
Qed.

(** X6: a resolve that returns has issued one lookup for every started
    hundred of non-empty identifiers, and none when there is no
    non-empty identifier. *)
Theorem resolver_lookup_count (row_ids : list string) (w : world) (m : pydict) :
  let r := get_reference_table_rows_by_id srv rows_url row_ids service_col team_col
             verbose w in
  let n := length (filter (fun r => r ≠ "") row_ids) in
  r.1 = Ret m ->
  exists reqs,
    calls r.2 = calls w ++ reqs
    /\ length reqs = ((n + 99) / 100)%nat
    /\ (n = 0%nat -> m = [] /\ reqs = []).
Proof.
  cbv zeta. unfold get_reference_table_rows_by_id.
  rewrite (rows_by_id_chunked_loop srv rows_url service_col team_col verbose 100).
  set (row_list := filter (fun r => r ≠ "") row_ids). intros Hret.
  destruct (rows_loop_calls srv rows_url service_col team_col verbose row_list 100
              (py_range 0 (length row_list) 100) [] w) as (_ & _ & Hall).
  eexists. split; [exact (Hall m Hret)|]. split.
  - rewrite length_map. unfold py_range. rewrite range_from_length by lia.
    f_equal. lia.
  - intros Hn. revert Hret. rewrite Hn. cbn. by intros [= <-].
Qed.

(** X7: the mapping a resolve returns has distinct keys and never the
    empty identifier as a key. *)
Theorem resolver_mapping_keys (row_ids : list string) (w : world) (m : pydict) :
  (get_reference_table_rows_by_id srv rows_url row_ids service_col team_col
     verbose w).1 = Ret m ->
  NoDup m.*1 /\ "" ∉ m.*1.
Proof.
  unfold get_reference_table_rows_by_id.
  rewrite (rows_by_id_chunked_loop srv rows_url service_col team_col verbose 100).
  intros H. apply rows_loop_grows in H as (Hnd & Hne & _).
  split; [apply Hnd, NoDup_nil_2 | apply Hne, not_elem_of_nil].
Qed.

(** X8: within one response a later row for a service replaces the team
    of an earlier one, and no row removes a service from the mapping. *)
Theorem last_row_wins (m m' : pydict) (pre : list json) (item values : json)
    (sv tv : string) :
  _extract_row_values item = Ok values ->
  py_get values service_col JNull = Ok (JStr sv) ->
  strip sv ≠ "" ->
  py_get values team_col JNull = Ok (JStr tv) ->
  ofold (rows_item service_col team_col) m (pre ++ [item]) = Ok m' ->
  assoc_get (strip sv) m' = Some (strip tv)
  /\ forall k, k ∈ m.*1 -> k ∈ m'.*1.
Proof.
  intros Hv Hs Hne Ht. rewrite ofold_app.
  destruct (ofold (rows_item service_col team_col) m pre) as [m1|] eqn:Epre; [|done].
  cbn [obind ofold]. intros Hlast.
  assert (Hitem : rows_item service_col team_col m1 item
                  = Ok (dict_set (strip sv) (strip tv) m1)).
  { unfold rows_item. rewrite Hv. cbn [obind]. rewrite Hs. cbn [obind].
    assert (Hsv : py_or (JStr sv) (JStr "") = JStr sv).
    { unfold py_or. cbn. destruct (String.eqb_spec sv ""); [by subst|done]. }
    rewrite Hsv. cbn [py_strip obind]. rewrite Ht. cbn [obind].
    assert (Htv : py_strip (py_or (JStr tv) (JStr "")) = Ok (strip tv)).
    { unfold py_or. cbn. destruct (String.eqb_spec tv ""); [by subst|done]. }
    rewrite Htv. cbn [obind]. by rewrite (String_eqb_eq_false _ _ Hne). }
  rewrite Hitem in Hlast. cbn [obind] in Hlast. injection Hlast as <-. split.
  - rewrite assoc_get_dict_set. by rewrite String.eqb_refl.
  - intros k Hk. rewrite elem_of_keys_dict_set. right.
    eapply (ofold_grows _ pre); [|exact Epre|exact Hk].
    intros ? ? ?. apply rows_item_grows.
Qed.
End ResolverMore.

Lemma resolver_lookup_count_witness :
  exists reqs,
    calls (get_reference_table_rows_by_id srv_store "rows" ["a"; ""; "b"]
             "service" "team" false w0).2 = calls w0 ++ reqs
    /\ length reqs = 1%nat.
Proof.
  assert (H : (get_reference_table_rows_by_id srv_store "rows" ["a"; ""; "b"]
                 "service" "team" false w0).1 = Ret [("a", "ops")]) by reflexivity.
  destruct (resolver_lookup_count srv_store "rows" "service" "team" false
              ["a"; ""; "b"] w0 [("a", "ops")] H) as (reqs & H1 & H2 & _).
  exists reqs. split; [exact H1 | exact H2].
Defined.

Lemma resolver_mapping_keys_witness :
  NoDup [("a", "ops")].*1 /\ "" ∉ [("a", "ops")].*1.
Proof.
  apply (resolver_mapping_keys srv_store "rows" "service" "team" false ["a"; "b"] w0).
  reflexivity.
Defined.

Lemma last_row_wins_witness :
  assoc_get "a" [("a", "sre")] = Some "sre".
Proof.
  apply (last_row_wins "service" "team" [] [("a", "sre")] [row_doc "a" "ops"]
           (row_doc "a" " sre ")
           (JObj [("service", JStr "a"); ("team", JStr " sre ")]) "a" " sre ");
    try reflexivity.
  vm_compute. discriminate.
Defined.

(** ** Placeholder teams *)

Lemma keys_imap {V} (f : nat -> string -> string * V) (ks : list string) :
  (forall i x, (f i x).1 = x) -> (imap f ks).*1 = ks.
Proof.
  revert f. induction ks as [|k ks IH]; intros f Hf; cbn; [done|].
  rewrite Hf. f_equal. apply (IH (f ∘ S)). intros i x. apply Hf.
Qed.

Lemma assoc_get_Some_NoDup {V} (k : string) (v : V) (m : list (string * V)) :
  NoDup m.*1 -> (k, v) ∈ m -> assoc_get k m = Some v.
Proof.
  induction m as [|[k' v'] m IH]; cbn; intros Hnd Hin.
  - by apply elem_of_nil in Hin.
  - apply NoDup_cons in Hnd as [Hk Hnd]. apply elem_of_cons in Hin as [[= <- <-]|Hin].
    + by rewrite String.eqb_refl.
    + destruct (String.eqb_spec k k') as [->|Hne]; [|by apply IH].
      exfalso. apply Hk. apply list_elem_of_fmap. by exists (k', v).
Qed.

(** The names that get a placeholder, in the order of their rows. *)
Definition placeholder_names (l : list string) : list string :=
  sorted (py_set (filter (fun s => s ≠ "") l)).

Lemma assign_dummy_teams_names (l : list string) :
  (assign_dummy_teams l).*1 = placeholder_names l.
Proof. rewrite assign_dummy_teams_imap. by apply keys_imap. Qed.

Lemma assign_dummy_teams_lookup (l : list string) (s : string) :
  s ∈ l -> s ≠ "" ->
  exists i, placeholder_names l !! i = Some s
            /\ assoc_get s (reverse (assign_dummy_teams l))
               = Some (teams !!! (i mod 2)%nat).
Proof.
  intros Hin Hne.
  assert (Hs : s ∈ placeholder_names l).
  { unfold placeholder_names.
    rewrite elem_of_sorted, elem_of_py_set, list_elem_of_filter. done. }
  apply list_elem_of_lookup in Hs as [i Hi]. exists i. split; [exact Hi|].
  apply assoc_get_Some_NoDup.
  - rewrite fmap_reverse, reverse_Permutation, assign_dummy_teams_names.
    apply NoDup_sorted, NoDup_py_set.
  - rewrite elem_of_reverse, assign_dummy_teams_imap.
    apply elem_of_lookup_imap. by exists i, s.
Qed.

Lemma two_teams (i : nat) :
  teams !!! (i mod 2)%nat = "team 1" \/ teams !!! (i mod 2)%nat = "team 2".
Proof.
  pose proof (Nat.mod_upper_bound i 2) as Hlt.
  destruct (i mod 2)%nat as [|[|n]]; [by left | by right | lia].
Qed.

Section Placeholders.
Variable srv : oracle.
Variable order : set_order.
Variables (rows_url service_col team_col : string).

(** X9: the gap filler always returns, whatever the create calls answer,
    and the mapping it returns is settled by the resolved mapping and
    the discovered services alone: a service of the resolved mapping
    keeps its team, a discovered non-empty service without a row gets
    "team 1" or "team 2", and nothing else gets an entry; the empty
    identifier in particular gets none. *)
Theorem placeholder_for_missing (dry_run verbose : bool) (services : pyset)
    (mapping : pydict) (w : world) :
  exists mapping',
    (fill_gaps srv order rows_url service_col team_col dry_run verbose
       services mapping w).1 = Ret mapping'
    /\ forall s,
        match assoc_get s mapping with
        | Some team => assoc_get s mapping' = Some team
        | None =>
            (s ∈ services /\ s ≠ "" ->
             assoc_get s mapping' = Some "team 1" \/ assoc_get s mapping' = Some "team 2")
            /\ (s ∉ services \/ s = "" -> assoc_get s mapping' = None)
        end.
Proof.
  destruct (fill_gaps_run srv order rows_url service_col team_col dry_run verbose
              services mapping w) as [Hg _].
  eexists. split; [exact Hg|]. intros s.
  destruct (assoc_get s mapping) as [team|] eqn:Hs.
  - assert (Hmem : dict_mem s mapping = true) by (unfold dict_mem; by rewrite Hs).
    destruct (fill_gaps_keeps order services mapping s Hmem) as [_ Hk].
    by rewrite Hk.
  - rewrite assoc_get_dict_update, Hs. unfold dummy_rows.
    set (missing := filter (fun s => dict_mem s mapping = false) (order services)).
    assert (Hmiss : forall x, x ∈ missing <-> x ∈ services /\ dict_mem x mapping = false).
    { intros x. unfold missing. rewrite list_elem_of_filter, (enum_perm order). tauto. }
    split.
    + intros [Hin Hne].
      destruct (assign_dummy_teams_lookup missing s) as (i & _ & ->); [|done|].
      * apply Hmiss. split; [done|]. unfold dict_mem. by rewrite Hs.
      * destruct (two_teams i) as [-> | ->]; auto.
    + intros Hout.
      assert (Hno : assoc_get s (reverse (assign_dummy_teams missing)) = None).
      { apply assoc_get_None. rewrite fmap_reverse, elem_of_reverse.
        intros Hk. apply assign_dummy_teams_keys in Hk as Hk'.
        apply Hmiss in Hk' as [Hin _].
        rewrite assign_dummy_teams_names in Hk. unfold placeholder_names in Hk.
        rewrite elem_of_sorted, elem_of_py_set, list_elem_of_filter in Hk.
        destruct Hout as [Hout|Hout]; tauto. }
      by rewrite Hno.
Qed.
End Placeholders.

Lemma mod2_even (n : nat) : (n mod 2 = if Nat.even n then 0 else 1)%nat.
Proof.
  assert (H : (n mod 2 = if Nat.even n then 0 else 1)%nat
              /\ (S n mod 2 = if Nat.even (S n) then 0 else 1)%nat).
  { induction n as [|n [IH1 IH2]]; [done|]. split; [exact IH2|].
    replace (S (S n)) with (n + 1 * 2)%nat by lia.
    rewrite Nat.Div0.mod_add. replace (n + 1 * 2)%nat with (S (S n)) by lia.
    exact IH1. }
  apply H.
Qed.

(** The rows that carry [team]. *)
Definition rows_of_team (team : string) (rows : list (string * string)) : pydict :=
  filter (fun r => r.2 = team) rows.

Lemma rotation_counts (ks : list string) (n : nat) :
  let rows := imap (fun i => rotation (n + i)) ks in
  let n1 := length (rows_of_team "team 1" rows) in
  let n2 := length (rows_of_team "team 2" rows) in
  (n1 + n2 = length ks)%nat
  /\ if Nat.even n then (n2 <= n1 <= n2 + 1)%nat else (n1 <= n2 <= n1 + 1)%nat.
Proof.
  cbv zeta. revert n. induction ks as [|k ks IH]; intros n.
  - cbn. destruct (Nat.even n); lia.
  - rewrite imap_cons. unfold rows_of_team in *. rewrite !filter_cons.
    assert (Hext : imap ((fun i => rotation (n + i)) ∘ S) ks
                   = imap (fun i => rotation (S n + i)) ks).
    { apply imap_ext. intros i x _. cbn. f_equal. lia. }
    rewrite Hext. specialize (IH (S n)). rewrite Nat.even_succ, <- Nat.negb_even in IH.
    set (r := rotation (n + 0) k).
    assert (Hhd : r.2 = if Nat.even n then "team 1" else "team 2").
    { unfold r, rotation. cbn [snd length teams].
      rewrite Nat.add_0_r, mod2_even. by destruct (Nat.even n). }
    destruct IH as [IH1 IH2]. rewrite Hhd. clearbody r.
    destruct (Nat.even n); cbn [negb] in IH2; repeat case_decide; try done;
      cbn [length]; lia.
Qed.

(** X10: the placeholders are dealt out evenly: every distinct non-empty
    name gets one row, each row carries "team 1" or "team 2", and
    "team 1" gets as many rows as "team 2" or one more. *)
Theorem placeholders_balanced (l : list string) :
  let rows := assign_dummy_teams l in
  let n1 := length (rows_of_team "team 1" rows) in
  let n2 := length (rows_of_team "team 2" rows) in
  length rows = length (py_set (filter (fun s => s ≠ "") l))
  /\ (n1 + n2 = length rows)%nat
  /\ (n2 <= n1 <= n2 + 1)%nat.
Proof.
  cbv zeta. rewrite assign_dummy_teams_imap.
  pose proof (rotation_counts (sorted (py_set (filter (fun s => s ≠ "") l))) 0)
    as [Hsum Hbal].
  cbn [Nat.add Nat.even] in Hsum, Hbal.
  rewrite length_imap, (Permutation_length (sorted_perm _)).
  rewrite (Permutation_length (sorted_perm _)) in Hsum.
  split; [done|]. split; [exact Hsum | exact Hbal].
Qed.

(** ** Finding the table *)

(** What the lookup reads of a listed table: its stripped name and its
    identifier. *)
Definition item_name (item : json) : result string :=
  let? a := py_get item "attributes" (JObj []) in
  let? n := table_name_of (py_or a (JObj [])) in
  py_strip n.

Definition item_id (item : json) : result json :=
  let? i := py_get item "id" JNull in
  Ok (py_or i (JStr "")).

(** The tables that a response lists. *)
Definition page_items (resp : response) : result (list json) :=
  let? payload := resp_json resp in
  let? d := py_get payload "data" (JArr []) in
  py_iter (py_or d (JArr [])).

(** [item] is the table called [table_name], by name or by identifier,
    in any case. *)
Definition names_table (table_name : string) (item : json) : Prop :=
  (exists api, item_name item = Ok api /\ lower api = lower table_name)
  \/ (exists id, item_id item = Ok id /\ py_lower id = Ok (lower table_name)).

Lemma table_id_item_inr (table_name : string) (available : list string)
    (item id : json) :
  table_id_item table_name available item = Ok (inr id) ->
  item_id item = Ok id /\ names_table table_name item.
Proof.
  unfold table_id_item, names_table, item_id, item_name.
  destruct (py_get item "attributes" (JObj [])) as [a|]; [|done]. cbn [obind].
  destruct (table_name_of (py_or a (JObj []))) as [n|]; [|done]. cbn [obind].
  destruct (py_strip n) as [api|]; [|done]. cbn [obind].
  destruct (py_get item "id" JNull) as [i|]; [|done]. cbn [obind].
  destruct (String.eqb_spec (lower api) (lower table_name)) as [Heq|_].
  - intros [= <-]. split; [done|]. left. by exists api.
  - destruct (py_lower (py_or i (JStr ""))) as [il|] eqn:Hil; [|done]. cbn [obind].
    destruct (String.eqb_spec il (lower table_name)) as [->|_]; [|done].
    intros [= <-]. split; [done|]. right. eexists. split; [reflexivity | exact Hil].
Qed.

Lemma table_id_items_inr (table_name : string) (items : list json) :
  forall available id,
    table_id_items table_name available items = Ok (inr id) ->
    exists item, item ∈ items /\ item_id item = Ok id /\ names_table table_name item.
Proof.
  induction items as [|item items IH]; intros available id; cbn [table_id_items]; [done|].
  destruct (table_id_item table_name available item) as [[av|id']|] eqn:Hit; [| |done];
    cbn [obind].
  - intros H. destruct (IH _ _ H) as (it & Hin & Hid). exists it.
    split; [by right | exact Hid].
  - intros [= <-]. apply table_id_item_inr in Hit. exists item. split; [by left | exact Hit].
Qed.

(** The lookup reads [table_name] only through [lower]. *)
Lemma table_id_items_lower (n1 n2 : string) (items : list json) :
  lower n1 = lower n2 ->
  forall available,
    table_id_items n1 available items = table_id_items n2 available items.
Proof.
  intros Hl. induction items as [|item items IH]; intros available; [done|].
  cbn [table_id_items].
  assert (Hitem : table_id_item n1 available item = table_id_item n2 available item)
    by (unfold table_id_item; by rewrite Hl).
  rewrite Hitem. destruct (table_id_item n2 available item) as [[av|id]|]; cbn [obind];
    [apply IH | done | done].
Qed.

Section TableFacts.
Variable srv : oracle.

Lemma table_id_pages_sound (table_name : string) (verbose : bool) (fuel : nat) :
  forall url params available w id w',
    table_id_pages srv fuel table_name verbose url params available w = (Ret id, w') ->
    exists hist u p items item,
      calls w' = hist ++ [TablesGet u p]
      /\ prefix (calls w) hist
      /\ page_items (srv hist (TablesGet u p)) = Ok items
      /\ item ∈ items
      /\ item_id item = Ok id
      /\ names_table table_name item.
Proof.
  induction fuel as [|fuel IH]; intros url params available w id w'; [done|].
  cbn [table_id_pages]. unfold mbind, http. cbn [calls stdout].
  set (resp := srv (calls w) (TablesGet url params)).
  set (w1 := {| calls := calls w ++ [TablesGet url params]; stdout := stdout w |}).
  destruct (status_code resp =? 401)%Z; [done|].
  destruct (status_code resp =? 404)%Z.
  { unfold table_not_found. by destruct (verbose && _). }
  destruct (raise_for_status resp) as [[]|]; [|done]. cbn [lift mret].
  destruct (resp_json resp) as [payload|] eqn:Hpayload; [|done]. cbn [lift mret].
  destruct (let? d := py_get payload "data" (JArr []) in
            let? items := py_iter (py_or d (JArr [])) in
            table_id_items table_name available items) as [[av|id']|] eqn:Hfind;
    [| |done]; cbn [lift mret].
  - destruct (next_link payload) as [nl|]; [|done]. cbn [lift mret].
    destruct (truthy nl).
    + intros H. destruct (IH _ _ _ _ _ _ H) as (hist & u & p & items & item & Hc & Hp & Hrest).
      exists hist, u, p, items, item. split; [exact Hc|]. split; [|exact Hrest].
      etrans; [|exact Hp]. by apply prefix_app_r.
    + unfold table_not_found. by destruct (verbose && _).
  - intros [= <- <-].
    destruct (py_get payload "data" (JArr [])) as [d|] eqn:Hd; [|done]. cbn [obind] in Hfind.
    destruct (py_iter (py_or d (JArr []))) as [items|] eqn:Hitems; [|done].
    cbn [obind] in Hfind.
    apply table_id_items_inr in Hfind as (item & Hin & Hid & Hname).
    exists (calls w), url, params, items, item.
    split; [done|]. split; [done|]. split; [|done].
    unfold page_items. fold resp. rewrite Hpayload. cbn [obind]. rewrite Hd. cbn [obind].
    exact Hitems.
Qed.

(** X11: an identifier that the table lookup returns is, with [""] for
    a missing one, the identifier of a table listed in the answer to
    the last request it issued, and that table carries the wanted name
    as its name or as its identifier, compared without regard to
    case. *)
Theorem table_id_sound (fuel : nat) (base_url table_name : string) (verbose : bool)
    (w : world) (id : json) :
  let r := get_reference_table_id srv fuel base_url table_name verbose w in
  r.1 = Ret id ->
  exists hist u p items item,
    calls r.2 = hist ++ [TablesGet u p]
    /\ prefix (calls w) hist
    /\ page_items (srv hist (TablesGet u p)) = Ok items
    /\ item ∈ items
    /\ item_id item = Ok id
    /\ names_table table_name item.
Proof.
  cbv zeta. unfold get_reference_table_id.
  destruct (table_id_pages srv fuel table_name verbose (tables_url base_url)
              first_page_params [] w) as [o w'] eqn:E.
  cbn [fst snd]. intros ->.
  destruct (table_id_pages_sound table_name verbose fuel _ _ _ _ _ _ E)
    as (hist & u & p & items & item & Hrest).
  by exists hist, u, p, items, item.
Qed.

Lemma table_id_pages_lower (n1 n2 : string) (verbose : bool) (fuel : nat) :
  lower n1 = lower n2 ->
  forall url params available w,
    let r1 := table_id_pages srv fuel n1 verbose url params available w in
    let r2 := table_id_pages srv fuel n2 verbose url params available w in
    r1.2 = r2.2
    /\ (r1.1 = r2.1
        \/ exists m1 m2, r1.1 = Raise (SystemExit m1) /\ r2.1 = Raise (SystemExit m2)).
Proof.
  intros Hl. cbv zeta.
  assert (Hnf : forall available w,
            (@table_not_found json n1 verbose available w).2
            = (@table_not_found json n2 verbose available w).2
            /\ exists m1 m2,
                (@table_not_found json n1 verbose available w).1 = Raise (SystemExit m1)
                /\ (@table_not_found json n2 verbose available w).1
                   = Raise (SystemExit m2)).
  { intros available w. unfold table_not_found.
    destruct (verbose && _); cbn; eauto. }
  induction fuel as [|fuel IH]; intros url params available w; [by split; [|left]|].
  cbn [table_id_pages]. unfold mbind, http. cbn [calls stdout].
  set (resp := srv (calls w) (TablesGet url params)).
  set (w1 := {| calls := calls w ++ [TablesGet url params]; stdout := stdout w |}).
  destruct (status_code resp =? 401)%Z; [by split; [|left]|].
  destruct (status_code resp =? 404)%Z.
  { destruct (Hnf available w1) as [H1 H2]. split; [exact H1 | by right]. }
  destruct (raise_for_status resp) as [[]|]; [|by split; [|left]].
  cbn [lift mret].
  destruct (resp_json resp) as [payload|]; [|by split; [|left]]. cbn [lift mret].
  assert (Hfind : (let? d := py_get payload "data" (JArr []) in
                   let? items := py_iter (py_or d (JArr [])) in
                   table_id_items n1 available items)
                  = (let? d := py_get payload "data" (JArr []) in
                     let? items := py_iter (py_or d (JArr [])) in
                     table_id_items n2 available items)).
  { destruct (py_get payload "data" (JArr [])) as [d|]; [|done]. cbn [obind].
    destruct (py_iter (py_or d (JArr []))) as [items|]; [|done]. cbn [obind].
    by apply table_id_items_lower. }
  rewrite Hfind.
  destruct (let? d := py_get payload "data" (JArr []) in
            let? items := py_iter (py_or d (JArr [])) in
            table_id_items n2 available items) as [[av|id']|];
    [| by split; [|left] | by split; [|left]]; cbn [lift mret].
  destruct (next_link payload) as [nl|]; [|by split; [|left]]. cbn [lift mret].
  destruct (truthy nl); [apply IH|].
  destruct (Hnf av w1) as [H1 H2]. split; [exact H1 | by right].
Qed.

(** X12: the table lookup does not look at the case of the wanted name.
    Two names that differ only in case lead to the same requests and
    the same output, and the lookup returns an identifier for the one
    exactly when it returns it for the other; when nothing matches both
    runs end with [SystemExit]. *)
Theorem table_lookup_ignores_case (fuel : nat) (base_url n1 n2 : string)
    (verbose : bool) (w : world) :
  lower n1 = lower n2 ->
  let r1 := get_reference_table_id srv fuel base_url n1 verbose w in
  let r2 := get_reference_table_id srv fuel base_url n2 verbose w in
  r1.2 = r2.2
  /\ (forall id, r1.1 = Ret id <-> r2.1 = Ret id)
  /\ (r1.1 = OutOfFuel <-> r2.1 = OutOfFuel)
  /\ ((exists e, r1.1 = Raise e) <-> (exists e, r2.1 = Raise e)).
Proof.
  intros Hl. cbv zeta. unfold get_reference_table_id.
  destruct (table_id_pages_lower n1 n2 verbose fuel Hl (tables_url base_url)
              first_page_params [] w) as [Hw Hr].
  split; [exact Hw|].
  destruct Hr as [Heq|(m1 & m2 & H1 & H2)].
  - rewrite Heq. done.
  - rewrite H1, H2. repeat split; try done; intros _; eauto.
Qed.
End TableFacts.

Definition table_doc (id name : string) : json :=
  JObj [("id", JStr id); ("attributes", JObj [("table_name", JStr name)])].

(** A store with two tables on one page. *)
Definition srv_tables : oracle :=
  fun _ _ => ok_json (JObj [("data", JArr [table_doc "t1" "owners";
                                           table_doc "t2" "Service_Teams"])]).

Lemma table_id_sound_witness :
  exists item, item_id item = Ok (JStr "t2") /\ names_table "service_teams" item.
Proof.
  destruct (table_id_sound srv_tables 1 "https://api.datadoghq.com" "service_teams"
              false w0 (JStr "t2") eq_refl)
    as (hist & u & p & items & item & _ & _ & _ & _ & Hid & Hname).
  by exists item.
Defined.

Lemma table_lookup_ignores_case_witness :
  (get_reference_table_id srv_tables 1 "https://api.datadoghq.com" "SERVICE_TEAMS"
     false w0).1 = Ret (JStr "t2").
Proof.
  destruct (table_lookup_ignores_case srv_tables 1 "https://api.datadoghq.com"
              "SERVICE_TEAMS" "service_teams" false w0 eq_refl) as (_ & H & _).
  apply H. reflexivity.
Defined.

(** ** The calls of a whole run *)

(** Every request that [m] issues satisfies [P]. *)
Definition traced (P : request -> Prop) {A} (m : M A) : Prop :=
  forall w, exists reqs, calls (m w).2 = calls w ++ reqs /\ Forall P reqs.

Lemma traced_silent (P : request -> Prop) {A} (m : M A) :
  (forall w, calls (m w).2 = calls w) -> traced P m.
Proof. intros H w. exists []. rewrite app_nil_r. split; [apply H | constructor]. Qed.

Lemma traced_mret (P : request -> Prop) {A} (a : A) : traced P (mret a).
Proof. by apply traced_silent. Qed.

Lemma traced_raise (P : request -> Prop) {A} (e : exn) : traced P (@raise A e).
Proof. by apply traced_silent. Qed.

Lemma traced_out_of_fuel (P : request -> Prop) {A} : traced P (@out_of_fuel A).
Proof. by apply traced_silent. Qed.

Lemma traced_lift (P : request -> Prop) {A} (o : result A) : traced P (lift o).
Proof. destruct o; [apply traced_mret | apply traced_raise]. Qed.

Lemma traced_print (P : request -> Prop) (line : string) : traced P (print line).
Proof. by apply traced_silent. Qed.

Lemma traced_print_words (P : request -> Prop) (ws : list string) :
  traced P (print_words ws).
Proof. apply traced_print. Qed.

Lemma traced_when (P : request -> Prop) (b : bool) (m : M unit) :
  traced P m -> traced P (when b m).
Proof. destruct b; [done | intros _; apply traced_mret]. Qed.

Lemma traced_http (P : request -> Prop) (srv : oracle) (req : request) :
  P req -> traced P (http srv req).
Proof. intros H w. exists [req]. split; [done | by constructor]. Qed.

Lemma traced_bind (P : request -> Prop) {A B} (m : M A) (k : A -> M B) :
  traced P m -> (forall a, traced P (k a)) -> traced P (mbind m k).
Proof.
  intros Hm Hk w. unfold mbind. destruct (Hm w) as (r1 & H1 & F1).
  destruct (m w) as [[a|e|] w1]; cbn [snd] in *; [|by exists r1..].
  destruct (Hk a w1) as (r2 & H2 & F2). exists (r1 ++ r2).
  split; [by rewrite H2, H1, app_assoc | by apply Forall_app].
Qed.

Lemma traced_bind_mret (P : request -> Prop) {A B} (a : A) (k : A -> M B) :
  traced P (k a) -> traced P (mbind (mret a) k).
Proof. intros H w. exact (H w). Qed.

Lemma traced_mfold (P : request -> Prop) {A B} (f : A -> B -> M A) (a : A)
    (l : list B) :
  (forall a x, traced P (f a x)) -> traced P (mfold f a l).
Proof.
  intros Hf. revert a. induction l as [|x l IH]; intros a; cbn [mfold].
  - apply traced_mret.
  - apply traced_bind; [apply Hf | apply IH].
Qed.

Lemma traced_weaken (P Q : request -> Prop) {A} (m : M A) :
  (forall r, P r -> Q r) -> traced P m -> traced Q m.
Proof.
  intros HPQ Hm w. destruct (Hm w) as (reqs & Hc & HF). exists reqs.
  split; [exact Hc | by eapply Forall_impl].
Qed.

Create HintDb traces.
#[export] Hint Resolve traced_mret traced_raise traced_out_of_fuel traced_lift
  traced_print traced_print_words traced_when : traces.

(** Walks through a computation built from the monad's operations. *)
Ltac traces :=
  repeat match goal with
    | |- traced _ (mbind _ _) => apply traced_bind; [|intros ?]
    | |- traced _ (http _ _) => apply traced_http; first [reflexivity | by eexists]
    | |- traced _ (mfold _ _ _) => apply traced_mfold; intros ? ?
    | |- traced _ (if ?b then _ else _) => destruct b
    | |- traced _ (match ?x with _ => _ end) => destruct x
    | |- traced _ _ => solve [auto with traces]
    end.

(** The stage of the pipeline that a request belongs to. *)
Definition phase (r : request) : nat :=
  match r with
  | EventsSearch _ _ => 0
  | TablesGet _ _ => 1
  | RowsGet _ _ => 2
  | RowsPost _ _ => 3
  | DefinitionsPost _ _ => 4
  end.

Definition in_phase_order (reqs : list request) : Prop :=
  StronglySorted (fun a b => (phase a <= phase b)%nat) reqs.

(** [m] issues requests of the stages [lo] to [hi] only, stage by stage. *)
Definition phased (lo hi : nat) {A} (m : M A) : Prop :=
  forall w, exists reqs,
    calls (m w).2 = calls w ++ reqs
    /\ Forall (fun r => (lo <= phase r <= hi)%nat) reqs
    /\ in_phase_order reqs.

Lemma phased_single (p lo hi : nat) {A} (m : M A) :
  (lo <= p <= hi)%nat -> traced (fun r => phase r = p) m -> phased lo hi m.
Proof.
  intros Hp Hm w. destruct (Hm w) as (reqs & Hc & HF). exists reqs.
  split; [exact Hc|]. split.
  - eapply Forall_impl; [exact HF|]. intros r Hr. cbv beta in Hr. lia.
  - unfold in_phase_order. clear Hc. induction HF as [|r reqs Hr HF IH]; constructor.
    + exact IH.
    + eapply Forall_impl; [exact HF|]. intros r' Hr'. cbv beta in Hr'. lia.
Qed.

Lemma phased_silent (lo hi : nat) {A} (m : M A) :
  (forall w, calls (m w).2 = calls w) -> phased lo hi m.
Proof.
  intros H w. exists []. rewrite app_nil_r.
  split; [apply H|]. split; constructor.
Qed.

Lemma phased_seq (lo1 hi1 lo2 hi2 lo hi : nat) {A B} (m : M A) (k : A -> M B) :
  phased lo1 hi1 m -> (forall a, phased lo2 hi2 (k a)) ->
  (hi1 <= lo2)%nat -> (lo <= lo1)%nat -> (lo <= lo2)%nat ->
  (hi1 <= hi)%nat -> (hi2 <= hi)%nat ->
  phased lo hi (mbind m k).
Proof.
  intros Hm Hk H12 Hl1 Hl2 Hh1 Hh2 w. unfold mbind.
  destruct (Hm w) as (r1 & H1 & F1 & S1).
  assert (F1' : Forall (fun r => (lo <= phase r <= hi)%nat) r1).
  { eapply Forall_impl; [exact F1|]. intros r Hr. cbv beta in Hr. lia. }
  destruct (m w) as [[a|e|] w1]; cbn [snd] in *; [|by exists r1..].
  destruct (Hk a w1) as (r2 & H2 & F2 & S2). exists (r1 ++ r2).
  split; [by rewrite H2, H1, app_assoc|]. split.
  - apply Forall_app. split; [exact F1'|].
    eapply Forall_impl; [exact F2|]. intros r Hr. cbv beta in Hr. lia.
  - apply StronglySorted_app_2; [|exact S1|exact S2].
    intros x1 x2 Hx1 Hx2.
    rewrite Forall_forall in F1, F2. specialize (F1 x1 Hx1). specialize (F2 x2 Hx2).
    cbv beta in F1, F2. lia.
Qed.

Section RunFacts.
Variable srv : oracle.
Variable order : set_order.

Lemma traced_events_pages (base_url start_iso end_iso query : string) (limit : Z)
    (max_pages : option Z) (verbose : bool) (fuel : nat) :
  forall page cursor bc services,
    traced (fun r => phase r = 0%nat)
      (events_pages srv base_url start_iso end_iso query limit max_pages
         verbose fuel page cursor bc services).
Proof.
  induction fuel as [|fuel IH]; intros page cursor bc services; cbn [events_pages].
  - apply traced_out_of_fuel.
  - apply traced_bind.
    + unfold events_iteration. traces.
    + intros [s|[[c b] s]]; [apply traced_mret | apply IH].
Qed.

Lemma traced_list_tables (fuel : nat) :
  forall url params out,
    traced (fun r => phase r = 1%nat) (list_tables_pages srv fuel url params out).
Proof.
  induction fuel as [|fuel IH]; intros url params out; cbn [list_tables_pages]; traces.
  all: apply IH.
Qed.

Lemma traced_table_id (table_name : string) (verbose : bool) (fuel : nat) :
  forall url params available,
    traced (fun r => phase r = 1%nat)
      (table_id_pages srv fuel table_name verbose url params available).
Proof.
  induction fuel as [|fuel IH]; intros url params available; cbn [table_id_pages];
    unfold table_not_found; traces.
  all: apply IH.
Qed.

Lemma traced_rows (rows_url service_col team_col : string) (verbose : bool)
    (row_ids : list string) :
  traced (fun r => exists params, r = RowsGet rows_url params)
    (get_reference_table_rows_by_id srv rows_url row_ids service_col team_col verbose).
Proof.
  unfold get_reference_table_rows_by_id, rows_by_id_chunked. traces.
  unfold rows_chunk. traces.
Qed.

Lemma traced_fill_gaps (rows_url service_col team_col : string) (dry_run verbose : bool)
    (services : pyset) (mapping : pydict) :
  traced (fun r => exists payload, r = RowsPost rows_url payload)
    (fill_gaps srv order rows_url service_col team_col dry_run verbose services mapping).
Proof.
  unfold fill_gaps, create_reference_table_rows. traces.
  all: unfold create_row; traces.
Qed.

Lemma traced_upsert_pass (base_url : string) (dry_run verbose : bool)
    (services : pyset) (mapping : pydict) :
  traced (fun r => phase r = 4%nat)
    (upsert_pass srv base_url dry_run verbose services mapping).
Proof.
  unfold upsert_pass. traces. unfold upsert_step. traces.
  unfold upsert_service_definition. traces.
Qed.

Lemma traced_print_summary (P : request -> Prop) (s : summary) :
  traced P (print_summary s).
Proof. unfold print_summary. traces. Qed.
End RunFacts.

Lemma mbind_Ret {A B} (m : M A) (k : A -> M B) (w : world) (b : B) :
  (mbind m k w).1 = Ret b ->
  exists a, (m w).1 = Ret a /\ mbind m k w = k a (m w).2.
Proof.
  unfold mbind. destruct (m w) as [[a|e|] w1]; cbn [fst snd]; [eauto | done..].
Qed.

Section RunOrder.
Variable srv : oracle.
Variable order : set_order.

Lemma phased_reconcile (base_url : string) (table_id : json)
    (service_col team_col : string) (dry_run verbose : bool) (services : pyset) :
  phased 2 4 (reconcile srv order base_url table_id service_col team_col dry_run
                verbose services).
Proof.
  unfold reconcile.
  eapply (phased_seq 2 2 3 4); [| |lia..].
  { eapply (phased_single 2); [lia|].
    eapply traced_weaken; [|apply traced_rows]. by intros r [params ->]. }
  intros mapping. eapply (phased_seq 3 3 4 4); [| |lia..].
  { eapply (phased_single 3); [lia|].
    eapply traced_weaken; [|apply traced_fill_gaps]. by intros r [payload ->]. }
  intros mapping'. eapply (phased_seq 4 4 4 4); [| |lia..].
  { eapply (phased_single 4); [lia | apply traced_upsert_pass]. }
  intros t. eapply (phased_single 4); [lia|].
  apply traced_bind; [apply traced_print_summary | intros ?; apply traced_mret].
Qed.

(** X13: the calls of a run come stage by stage: every events search
    precedes every listing of tables, which precedes every row lookup,
    which precedes every row creation, which precedes every catalog
    upsert; this holds however the run ends. *)
Theorem main_calls_in_phases (fuel : nat) (env : environ) (args : arguments)
    (w : world) :
  exists reqs,
    calls (main srv order fuel env args w).2 = calls w ++ reqs
    /\ StronglySorted (fun a b => (phase a <= phase b)%nat) reqs.
Proof.
  assert (H : phased 0 4 (main srv order fuel env args)).
  { unfold main.
    destruct (window env (arg_days args)) as [start_iso end_iso].
    destruct (_ || _); [by apply phased_silent|].
    destruct (arg_list_tables args).
    - eapply (phased_seq 1 1 1 1); [| |lia..].
      + eapply (phased_single 1); [lia | apply traced_list_tables].
      + intros tables. eapply (phased_single 1); [lia|]. traces.
    - eapply (phased_seq 0 0 0 4); [| |lia..].
      + eapply (phased_single 0); [lia | apply traced_events_pages].
      + intros services. destruct services as [|s services].
        { eapply (phased_single 0); [lia|]. traces. }
        eapply (phased_seq 1 1 2 4); [| |lia..].
        * eapply (phased_single 1); [lia|].
          destruct (REF_TABLE_ID env) as [[|c t]|];
            [apply traced_table_id | apply traced_mret | apply traced_table_id].
        * intros table_id. eapply (phased_seq 2 4 4 4); [apply phased_reconcile| |lia..].
          intros s'. by apply phased_silent. }
  destruct (H w) as (reqs & Hc & _ & Hs). by exists reqs.
Qed.

(** X14: with [--list-tables] a run only lists tables: every request it
    issues is a table listing, and it never gets to print a summary. *)
Theorem list_tables_mode (fuel : nat) (env : environ) (args : arguments) (w : world) :
  arg_list_tables args = true ->
  let r := main srv order fuel env args w in
  (exists reqs, calls r.2 = calls w ++ reqs
                /\ Forall (fun q => exists u p, q = TablesGet u p) reqs)
  /\ forall s, r.1 ≠ Ret (Some s).
Proof.
  intros Hlist. cbv zeta. split.
  - assert (H : traced (fun q => exists u p, q = TablesGet u p)
                  (main srv order fuel env args)).
    { eapply (traced_weaken (fun r => phase r = 1%nat)).
      { intros [] [=]. eauto. }
      unfold main. rewrite Hlist.
      destruct (window env (arg_days args)) as [start_iso end_iso].
      destruct (_ || _); [apply traced_raise|].
      apply traced_bind; [apply traced_list_tables|]. intros tables. traces. }
    apply H.
  - intros s. unfold main. rewrite Hlist.
    destruct (window env (arg_days args)) as [start_iso end_iso].
    destruct (_ || _); [done|].
    unfold mbind.
    destruct (list_reference_tables srv fuel _ w) as [[[|t ts]|e|] w1]; [done| |done..].
    unfold print, mret.
    by rewrite (print_lines_unfolded
                  (fun t => "- " +:+ py_str (t_id t) +:+ "  name="
                              +:+ py_str (py_or (t_name t) (JStr "(no name)")))).
Qed.

(** Where the rows of table [id] live for the site of [env]. *)
Definition override_rows_url (env : environ) (id : string) : string :=
  get_reference_table_rows_endpoint
    (build_api_base (Some (default "datadoghq.com" (DD_SITE env)))) (JStr id).

(** X15: with a non-empty [REF_TABLE_ID] a run never lists tables, and
    every row lookup and row creation goes to the rows endpoint of that
    table. *)
Theorem table_override_is_used (fuel : nat) (env : environ) (args : arguments)
    (w : world) (id : string) :
  arg_list_tables args = false ->
  REF_TABLE_ID env = Some id -> id ≠ "" ->
  exists reqs,
    calls (main srv order fuel env args w).2 = calls w ++ reqs
    /\ Forall (fun q => match q with
                        | TablesGet _ _ => False
                        | RowsGet u _ | RowsPost u _ => u = override_rows_url env id
                        | _ => True
                        end) reqs.
Proof.
  intros Hlist Hid Hne.
  set (P := fun q => match q with
                     | TablesGet _ _ => False
                     | RowsGet u _ | RowsPost u _ => u = override_rows_url env id
                     | _ => True
                     end).
  assert (H : traced P (main srv order fuel env args)); [|apply H].
  unfold main. rewrite Hlist, Hid.
  destruct (window env (arg_days args)) as [start_iso end_iso].
  destruct (_ || _); [apply traced_raise|].
  apply traced_bind.
  { eapply traced_weaken; [|apply traced_events_pages]. by intros [] [=]. }
  intros [|s services]; [traces|].
  destruct id as [|c t]; [done|].
  apply traced_bind_mret.
  apply traced_bind; [|intros ?; apply traced_mret].
  unfold reconcile.
  apply traced_bind.
  { eapply traced_weaken; [|apply traced_rows]. by intros r [params ->]. }
  intros mapping. apply traced_bind.
  { eapply traced_weaken; [|apply traced_fill_gaps]. by intros r [payload ->]. }
  intros mapping'. apply traced_bind.
  { eapply traced_weaken; [|apply traced_upsert_pass]. by intros [] [=]. }
  intros t'. apply traced_bind; [apply traced_print_summary | intros ?; apply traced_mret].
Qed.

(** X16: a run without [--list-tables] that ends without a summary has
    found no service: it has issued events searches only, no table or
    row is read or written, and the last line it prints says that no
    services were found. *)
Theorem no_services_stops_early (fuel : nat) (env : environ) (args : arguments)
    (w : world) :
  arg_list_tables args = false ->
  let r := main srv order fuel env args w in
  r.1 = Ret None ->
  (exists reqs, calls r.2 = calls w ++ reqs
                /\ Forall (fun q => exists u b, q = EventsSearch u b) reqs)
  /\ last (stdout r.2)
     = Some "No services found in events for the given query/time window.".
Proof.
  intros Hlist. cbv zeta. unfold main. rewrite Hlist.
  destruct (window env (arg_days args)) as [start_iso end_iso].
  destruct (_ || _); [done|].
  set (fetch := list_services_from_events _ _ _ _ _ _ _ _ _).
  intros Hret. pose proof (mbind_Ret _ _ _ _ Hret) as (services & E & Hk).
  rewrite Hk in Hret |- *. clear Hk.
  destruct (traced_events_pages srv
              (build_api_base (Some (default "datadoghq.com" (DD_SITE env))))
              start_iso end_iso (arg_query args) (arg_page_limit args)
              (arg_max_pages args) (arg_verbose args) fuel 0 JNull None [] w)
    as (reqs & Hc & HF).
  fold fetch in Hc.
  destruct services as [|s services].
  - cbn [mbind print mret fst snd calls stdout]. unfold mbind, print, mret.
    cbn [fst snd calls stdout]. split.
    + exists reqs. split; [exact Hc|].
      eapply Forall_impl; [exact HF|]. intros [] [=]. eauto.
    + by rewrite last_snoc.
  - exfalso. pose proof (mbind_Ret _ _ _ _ Hret) as (table_id & _ & Hk).
    rewrite Hk in Hret. pose proof (mbind_Ret _ _ _ _ Hret) as (s' & _ & Hk').
    rewrite Hk' in Hret. done.
Qed.
End RunOrder.

Definition args_list_tables : arguments :=
  {| arg_table := None; arg_service_col := None; arg_team_col := None;
     arg_days := 7; arg_query := "*"; arg_page_limit := 100; arg_max_pages := None;
     arg_verbose := false; arg_list_tables := true; arg_dry_run := false |}.

(** A source with no events. *)
Definition srv_quiet : oracle := fun _ _ => ok_json (JObj []).

Lemma list_tables_mode_witness :
  exists reqs,
    calls (main srv_tables id_order 2 env0 args_list_tables w0).2 = calls w0 ++ reqs
    /\ Forall (fun q => exists u p, q = TablesGet u p) reqs.
Proof.
  exact (proj1 (list_tables_mode srv_tables id_order 2 env0 args_list_tables w0 eq_refl)).
Defined.

Lemma table_override_is_used_witness :
  exists reqs,
    calls (main srv_upsert_fails id_order 5 env0 args0 w0).2 = calls w0 ++ reqs
    /\ Forall (fun q => match q with
                        | TablesGet _ _ => False
                        | RowsGet u _ | RowsPost u _ => u = override_rows_url env0 "tbl"
                        | _ => True
                        end) reqs.
Proof.
  assert (H : "tbl" ≠ "") by discriminate.
  exact (table_override_is_used srv_upsert_fails id_order 5 env0 args0 w0 "tbl"
           eq_refl eq_refl H).
Defined.

Lemma no_services_stops_early_witness :
  last (stdout (main srv_quiet id_order 1 env0 args0 w0).2)
  = Some "No services found in events for the given query/time window.".
Proof.
  exact (proj2 (no_services_stops_early srv_quiet id_order 1 env0 args0 w0
                  eq_refl eq_refl)).
Defined.

(** ** A service without a row *)

Lemma assign_dummy_teams_row (l : list string) (s : string) :
  s ∈ l -> s ≠ "" ->
  exists team,
    (team = "team 1" \/ team = "team 2")
    /\ (s, team) ∈ assign_dummy_teams l
    /\ assoc_get s (reverse (assign_dummy_teams l)) = Some team.
Proof.
  intros Hin Hne.
  destruct (assign_dummy_teams_lookup l s Hin Hne) as (i & Hi & Hget).
  exists (teams !!! (i mod 2)%nat). split; [apply two_teams|]. split; [|exact Hget].
  rewrite assign_dummy_teams_imap. apply elem_of_lookup_imap. by exists i, s.
Qed.

Section MissingRow.
Variable srv : oracle.
Variable order : set_order.
Variables (base_url rows_url service_col team_col : string).

(** X17: in a live run a discovered non-empty service that has no row
    in the resolved mapping is never skipped: it gets a create-row call
    with "team 1" or "team 2" and then an upsert call with that same
    team, whatever the create call answers. *)
Theorem missing_service_is_created_and_upserted (verbose : bool) (services : pyset)
    (mapping : pydict) (s : string) (w : world) :
  s ∈ services -> s ≠ "" -> assoc_get s mapping = None ->
  let g := fill_gaps srv order rows_url service_col team_col false verbose
             services mapping w in
  exists mapping' team,
    g.1 = Ret mapping'
    /\ (team = "team 1" \/ team = "team 2")
    /\ assoc_get s mapping' = Some team
    /\ create_request rows_url service_col team_col (s, team) ∈ calls g.2
    /\ let u := upsert_pass srv base_url false verbose services mapping' g.2 in
       exists t,
         u.1 = Ret t
         /\ (s ∉ missing_team t)
         /\ DefinitionsPost (base_url +:+ "/api/v2/services/definitions")
              (definition_payload s team) ∈ calls u.2.
Proof.
  intros Hin Hne Hnone. cbv zeta.
  destruct (fill_gaps_run srv order rows_url service_col team_col false verbose
              services mapping w) as [Hg1 Hg2].
  set (g := fill_gaps srv order rows_url service_col team_col false verbose
              services mapping w) in *.
  set (missing := filter (fun s => dict_mem s mapping = false) (order services)).
  assert (Hmiss : s ∈ missing).
  { unfold missing. rewrite list_elem_of_filter, (enum_perm order).
    split; [|done]. unfold dict_mem. by rewrite Hnone. }
  destruct (assign_dummy_teams_row missing s Hmiss Hne) as (team & Hteam & Hrow & Hget).
  set (mapping' := dict_update mapping (dummy_rows order services mapping)) in *.
  assert (Hm' : assoc_get s mapping' = Some team).
  { unfold mapping'. rewrite assoc_get_dict_update. unfold dummy_rows.
    fold missing. by rewrite Hget. }
  assert (Hteam_of : team_of mapping' s = team).
  { unfold team_of. rewrite Hm'. cbn [default]. by destruct Hteam as [-> | ->]. }
  assert (Hfull : team ≠ "") by (by destruct Hteam as [-> | ->]).
  exists mapping', team. split; [exact Hg1|]. split; [exact Hteam|].
  split; [exact Hm'|]. split.
  { rewrite Hg2, elem_of_app. right. apply list_elem_of_fmap.
    exists (s, team). split; [done|]. unfold dummy_rows. by fold missing. }
  destruct (upsert_pass_shape srv base_url verbose mapping' false services g.2)
    as (t & Hu1 & Hu2 & Hmt & _).
  exists t. split; [exact Hu1|]. split.
  - rewrite Hmt, list_elem_of_filter. rewrite Hteam_of. tauto.
  - rewrite Hu2, elem_of_app. right. apply list_elem_of_fmap. exists s.
    split; [unfold upsert_request; by rewrite Hteam_of|].
    rewrite list_elem_of_filter, elem_of_sorted, Hteam_of. done.
Qed.
End MissingRow.

Lemma missing_service_is_created_and_upserted_witness :
  exists team,
    (team = "team 1" \/ team = "team 2")
    /\ create_request "rows" "service" "team" ("b", team)
       ∈ calls (fill_gaps srv_conflict id_order "rows" "service" "team" false false
                  ["b"; "a"] [("a", "ops")] w0).2.
Proof.
  assert (Hin : "b" ∈ ["b"; "a"]) by (rewrite !elem_of_cons; auto).
  assert (Hne : "b" ≠ "") by discriminate.
  destruct (missing_service_is_created_and_upserted srv_conflict id_order
              "https://api.datadoghq.com" "rows" "service" "team" false
              ["b"; "a"] [("a", "ops")] "b" w0 Hin Hne eq_refl)
    as (m' & team & _ & Hteam & _ & Hc & _).
  exists team. split; [exact Hteam | exact Hc].
Defined.

(** ** Listing the tables *)

(** The entry that the listing makes of one item. *)
Definition table_of (item : json) : result table_info :=
  let? a := py_get item "attributes" (JObj []) in
  let attrs := py_or a (JObj []) in
  let? i := py_get item "id" JNull in
  let? n := table_name_of attrs in
  let? de := py_get attrs "description" JNull in
  Ok {| t_id := py_or i (JStr ""); t_name := n; t_description := py_or de (JStr "") |}.

(** One entry per item, in the order of the items. *)
Fixpoint tables_of (items : list json) : result (list table_info) :=
  match items with
  | [] => Ok []
  | item :: items' =>
      let? t := table_of item in
      let? ts := tables_of items' in
      Ok (t :: ts)
  end.

Lemma tables_of_length (items : list json) (ts : list table_info) :
  tables_of items = Ok ts -> length ts = length items.
Proof.
  revert ts. induction items as [|item items IH]; intros ts; cbn [tables_of].
  - by intros [= <-].
  - destruct (table_of item) as [t|]; [|done]. cbn [obind].
    destruct (tables_of items) as [ts'|]; [|done]. cbn [obind].
    intros [= <-]. cbn. by rewrite (IH ts').
Qed.

Lemma listing_fold (items : list json) (out : list table_info) :
  ofold (fun out item =>
           let? a := py_get item "attributes" (JObj []) in
           let attrs := py_or a (JObj []) in
           let? i := py_get item "id" JNull in
           let? n := table_name_of attrs in
           let? de := py_get attrs "description" JNull in
           Ok (out ++ [{| t_id := py_or i (JStr "");
                          t_name := n;
                          t_description := py_or de (JStr "") |}]))
        out items
  = let? ts := tables_of items in Ok (out ++ ts).
Proof.
  revert out. induction items as [|item items IH]; intros out; cbn [ofold tables_of].
  - cbn. by rewrite app_nil_r.
  - unfold table_of.
    destruct (py_get item "attributes" (JObj [])) as [a|]; [|done]. cbn [obind].
    destruct (py_get item "id" JNull) as [i|]; [|done]. cbn [obind].
    destruct (table_name_of (py_or a (JObj []))) as [n|]; [|done]. cbn [obind].
    destruct (py_get (py_or a (JObj [])) "description" JNull) as [de|]; [|done].
    cbn [obind]. rewrite IH.
    destruct (tables_of items) as [ts|]; [|done]. cbn [obind].
    by rewrite <- app_assoc.
Qed.

Section Listing.
Variable srv : oracle.

(** The requests of one listing, from history [hist] on, and the
    entries read from the answer to each: an answer that carries a
    next link is followed by a request to that link without query
    parameters, and an answer without one ends the listing. *)
Inductive listing :
  list request -> string -> option (list (string * string)) ->
  list request -> list (list table_info) -> Prop :=
| listing_last hist url params payload items ts nl :
    raise_for_status (srv hist (TablesGet url params)) = Ok tt ->
    resp_json (srv hist (TablesGet url params)) = Ok payload ->
    page_items (srv hist (TablesGet url params)) = Ok items ->
    tables_of items = Ok ts ->
    next_link payload = Ok nl ->
    truthy nl = false ->
    listing hist url params [TablesGet url params] [ts]
| listing_next hist url params payload items ts nl reqs pages :
    raise_for_status (srv hist (TablesGet url params)) = Ok tt ->
    resp_json (srv hist (TablesGet url params)) = Ok payload ->
    page_items (srv hist (TablesGet url params)) = Ok items ->
    tables_of items = Ok ts ->
    next_link payload = Ok nl ->
    truthy nl = true ->
    listing (hist ++ [TablesGet url params]) (py_str nl) None reqs pages ->
    listing hist url params (TablesGet url params :: reqs) (ts :: pages).

Lemma list_tables_pages_listing (fuel : nat) :
  forall url params out w tables w',
    list_tables_pages srv fuel url params out w = (Ret tables, w') ->
    exists reqs pages,
      calls w' = calls w ++ reqs
      /\ tables = out ++ concat pages
      /\ listing (calls w) url params reqs pages.
Proof.
  induction fuel as [|fuel IH]; intros url params out w tables w'; [done|].
  cbn [list_tables_pages]. unfold mbind, http. cbn [calls stdout].
  set (q := TablesGet url params). set (resp := srv (calls w) q).
  set (w1 := {| calls := calls w ++ [q]; stdout := stdout w |}).
  destruct (status_code resp =? 401)%Z; [done|].
  destruct (raise_for_status resp) as [[]|] eqn:Hstatus; [|done]. cbn [lift mret].
  destruct (resp_json resp) as [payload|] eqn:Hpayload; [|done]. cbn [lift mret].
  destruct (py_get payload "data" (JArr [])) as [d|] eqn:Hd; [|done]. cbn [obind].
  destruct (py_iter (py_or d (JArr []))) as [items|] eqn:Hitems; [|done]. cbn [obind].
  rewrite listing_fold.
  destruct (tables_of items) as [ts|] eqn:Hts; [|done]. cbn [obind lift mret].
  destruct (next_link payload) as [nl|] eqn:Hnl; [|done]. cbn [lift mret].
  assert (Hpage : page_items resp = Ok items).
  { unfold page_items. rewrite Hpayload. cbn [obind]. rewrite Hd. cbn [obind].
    exact Hitems. }
  destruct (truthy nl) eqn:Hmore.
  - intros H. destruct (IH _ _ _ _ _ _ H) as (reqs & pages & Hc & Ht & Hl).
    exists (q :: reqs), (ts :: pages). split.
    { rewrite Hc. cbn [calls w1]. by rewrite <- app_assoc. }
    split; [rewrite Ht; cbn [concat]; by rewrite <- app_assoc|].
    by eapply listing_next.
  - intros [= <- <-]. exists [q], [ts]. split; [done|]. split.
    { cbn [concat]. by rewrite app_nil_r. }
    by eapply listing_last.
Qed.

(** X18: a listing that returns has read every page up to the first
    one without a next link, following each link as the next request
    without query parameters, and returns the entries of all these
    pages in page order, one entry per listed item and in the order of
    the items. *)
Theorem listing_collects_all_pages (fuel : nat) (base_url : string) (w : world)
    (tables : list table_info) :
  let r := list_reference_tables srv fuel base_url w in
  r.1 = Ret tables ->
  exists reqs pages,
    calls r.2 = calls w ++ reqs
    /\ tables = concat pages
    /\ length reqs = length pages
    /\ listing (calls w) (tables_url base_url) first_page_params reqs pages.
Proof.
  cbv zeta. unfold list_reference_tables.
  destruct (list_tables_pages srv fuel (tables_url base_url) first_page_params [] w)
    as [o w'] eqn:E.
  cbn [fst snd]. intros ->.
  destruct (list_tables_pages_listing fuel _ _ _ _ _ _ E) as (reqs & pages & Hc & Ht & Hl).
  exists reqs, pages. split; [exact Hc|]. split; [exact Ht|]. split; [|exact Hl].
  clear Hc Ht E. induction Hl as [|? ? ? ? ? ? ? ? ? ? ? ? ? ? ? ? IHl]; cbn [length];
    [done | by rewrite IHl].
Qed.
End Listing.

Lemma listing_collects_all_pages_witness :
  exists reqs pages,
    calls (list_reference_tables srv_tables 1 "https://api.datadoghq.com" w0).2
    = calls w0 ++ reqs
    /\ [ {| t_id := JStr "t1"; t_name := JStr "owners"; t_description := JStr "" |};
         {| t_id := JStr "t2"; t_name := JStr "Service_Teams";
            t_description := JStr "" |} ] = concat pages
    /\ length reqs = length pages.
Proof.
  destruct (listing_collects_all_pages srv_tables 1 "https://api.datadoghq.com" w0 _
              eq_refl) as (reqs & pages & Hc & Ht & Hlen & _).
  exists reqs, pages. split; [exact Hc|]. split; [exact Ht | exact Hlen].
Defined.
